(** * img2pindou front end: a verification development

    Shallow embedding of the TypeScript front end of img2pindou
    ([App.tsx], [components/PixelViewer.tsx], [components/ImageUploader.tsx])
    and the properties of it that the specification relies on.

    Conventions of the embedding:
    - a JavaScript [number] that the code only uses as an integer is a [Z];
    - a JavaScript string is a [string]; a [Set<string>] is a [gset string]
      and a [Map<string,string>] a [gmap string string] (the code only uses
      [has], [size], [get], [set], [add], [delete], never iteration order);
    - an array is a [list];
    - React state is a record, a handler is a function on that record, and
      the asynchronous handlers are split at their [await] into the part
      that runs at the call and the part that runs at the completion;
    - a mounted component is followed over its renders: the runs of the
      drawing effect of the viewer are listed in order, each with the
      props and the state of the render it belongs to. *)

From Stdlib Require Import ZArith String Ascii List Lia.
From Stdlib Require Import Numbers.HexadecimalString Numbers.DecimalString.
From Stdlib Require Numbers.HexadecimalN.
From stdpp Require Import gmap strings list.

Open Scope Z_scope.

(** ** JavaScript primitives used by the code *)

Module Js.

(** [n.toString(16)] for a non-negative integer: lower-case digits, no
    padding, ["0"] for zero. *)
Definition hexOfN (n : N) : string :=
  HexadecimalString.NilZero.string_of_uint (N.to_hex_uint n).

(** [x.toString(16)] on an integer-valued number; a negative number
    prints as a minus sign followed by the digits of its magnitude. *)
Definition toString16 (x : Z) : string :=
  if (x <? 0)%Z then "-" +:+ hexOfN (Z.abs_N x) else hexOfN (Z.to_N x).

(** [String(n)] / template interpolation of an integer-valued number. *)
Definition toString10 (x : Z) : string :=
  if (x <? 0)%Z then "-" +:+ DecimalString.NilZero.string_of_uint (N.to_uint (Z.abs_N x))
  else DecimalString.NilZero.string_of_uint (N.to_uint (Z.to_N x)).

(** Truthiness of a string: only the empty string is falsy. *)
Definition truthy (s : string) : bool := negb (String.eqb s "").

(** Falsiness of a value that is a string or [undefined]. *)
Definition falsy (o : option string) : bool :=
  match o with
  | Some s => negb (truthy s)
  | None => true
  end.

(** [x || d] where [x] is a string or [undefined]: [d] when [x] is
    falsy, [x] itself otherwise. *)
Definition or_else (o : option string) (d : string) : string :=
  match o with
  | Some s => if truthy s then s else d
  | None => d
  end.

(** A [File] as far as the code looks at it. *)
Record File := { name : string; type : string }.

(** What a handler can find in a [catch]: a [TypeError], another
    [Error], or a thrown value that is no [Error] at all. *)
Inductive Thrown :=
| TypeError (message : string)
| Error (message : string)
| NotAnError.

End Js.

(** ** App.tsx *)

Module App.
Import Js.

(** [rgbToHex]: each channel printed in base 16 and left-padded with one
    ["0"] when it has a single character, joined and prefixed by ["#"]. *)
Definition padHex (x : Z) : string :=
  let hex := toString16 x in
  if (String.length hex =? 1)%nat then "0" +:+ hex else hex.

Definition rgbToHex (r g b : Z) : string :=
  "#" +:+ String.concat "" (map padHex [r; g; b]).

(** A channel value of the catalog: an unsigned byte. *)
Definition byte (x : Z) : Prop := 0 <= x < 256.

Definition byteTriple (c : Z * Z * Z) : Prop :=
  byte (fst (fst c)) /\ byte (snd (fst c)) /\ byte (snd c).

(** One element of [data.used_palette]: [{id, rgb: [r, g, b]}]. The
    fields [p.id] and [p.rgb] are [entry_id] and [entry_rgb] here ([id] is
    the identity function of the library). *)
Record PaletteEntry := { entry_id : string; entry_rgb : Z * Z * Z }.

(** The JSON body of a [/pixelate] response. [used_palette] is [None]
    when the field is not an array ([Array.isArray] fails). *)
Record PixelateResponse := {
  used_palette : option (list PaletteEntry);
  grid_data : list (list string);
  data_width : Z;
  data_height : Z;
  data_preview : string
}.

Record PixelResult := {
  gridData : list (list string);
  usedPalette : list string;
  width : Z;
  height : Z;
  preview : string
}.

Definition entryHex (p : PaletteEntry) : string :=
  let '(r, g, b) := entry_rgb p in rgbToHex r g b.

(** The entries the [forEach] visits: none when the guard fails. *)
Definition paletteEntries (data : PixelateResponse) : list PaletteEntry :=
  match used_palette data with
  | Some ps => ps
  | None => []
  end.

(** One iteration of the [forEach] body over the pair
    ([paletteMap], [paletteHexList]). *)
Definition paletteStep (acc : gmap string string * list string) (p : PaletteEntry)
  : gmap string string * list string :=
  let hex := entryHex p in
  (<[entry_id p := hex]> (fst acc), snd acc ++ [hex]).

Definition buildPalette (data : PixelateResponse) : gmap string string * list string :=
  foldl paletteStep (∅, []) (paletteEntries data).

Definition paletteMap (data : PixelateResponse) : gmap string string :=
  fst (buildPalette data).

Definition paletteHexList (data : PixelateResponse) : list string :=
  snd (buildPalette data).

(** [paletteMap.get(id) || '#000000'] *)
Definition cellHex (m : gmap string string) (cellId : string) : string :=
  or_else (m !! cellId) "#000000".

Definition gridHex (data : PixelateResponse) : list (list string) :=
  map (fun row => map (cellHex (paletteMap data)) row) (grid_data data).

(** The object handed to [setPixelResult]. *)
Definition toPixelResult (data : PixelateResponse) : PixelResult :=
  {| gridData := gridHex data;
     usedPalette := paletteHexList data;
     width := data_width data;
     height := data_height data;
     preview := data_preview data |}.

(** *** Component state

    [useState<1 | 2 | 3>] for the wizard step; the crop widget's own
    position state ([crop], [zoom], [croppedAreaPixels]) is not part of
    the model, and [apiUrl] is the constant it is initialised to (its
    setter is never called). *)
Inductive WizardStep := Step1 | Step2 | Step3.

Definition apiUrl : string := "/api".

Record Blob := { blob_bytes : string }.

Record AppState := {
  step : WizardStep;
  originalFile : option File;
  originalPreview : string;
  generatedImage : string;
  pixelResult : option PixelResult;
  gridSize : Z;
  tempGridSize : Z;
  maxColors : Z;
  tempMaxColors : Z;
  isCropping : bool;
  croppedImageBlob : option Blob;
  croppedImagePreview : string;
  isLoading : bool;
  error : option string
}.

Definition initialState : AppState :=
  {| step := Step1; originalFile := None; originalPreview := "";
     generatedImage := ""; pixelResult := None;
     gridSize := 64; tempGridSize := 64; maxColors := 15; tempMaxColors := 15;
     isCropping := false; croppedImageBlob := None; croppedImagePreview := "";
     isLoading := false; error := None |}.

(** The state setters returned by [useState]. *)
Definition setStep (v : WizardStep) (s : AppState) : AppState :=
  {| step := v; originalFile := originalFile s; originalPreview := originalPreview s;
     generatedImage := generatedImage s; pixelResult := pixelResult s;
     gridSize := gridSize s; tempGridSize := tempGridSize s;
     maxColors := maxColors s; tempMaxColors := tempMaxColors s;
     isCropping := isCropping s; croppedImageBlob := croppedImageBlob s;
     croppedImagePreview := croppedImagePreview s; isLoading := isLoading s;
     error := error s |}.

Definition setOriginalFile (v : option File) (s : AppState) : AppState :=
  {| step := step s; originalFile := v; originalPreview := originalPreview s;
     generatedImage := generatedImage s; pixelResult := pixelResult s;
     gridSize := gridSize s; tempGridSize := tempGridSize s;
     maxColors := maxColors s; tempMaxColors := tempMaxColors s;
     isCropping := isCropping s; croppedImageBlob := croppedImageBlob s;
     croppedImagePreview := croppedImagePreview s; isLoading := isLoading s;
     error := error s |}.

Definition setOriginalPreview (v : string) (s : AppState) : AppState :=
  {| step := step s; originalFile := originalFile s; originalPreview := v;
     generatedImage := generatedImage s; pixelResult := pixelResult s;
     gridSize := gridSize s; tempGridSize := tempGridSize s;
     maxColors := maxColors s; tempMaxColors := tempMaxColors s;
     isCropping := isCropping s; croppedImageBlob := croppedImageBlob s;
     croppedImagePreview := croppedImagePreview s; isLoading := isLoading s;
     error := error s |}.

Definition setGeneratedImage (v : string) (s : AppState) : AppState :=
  {| step := step s; originalFile := originalFile s;
     originalPreview := originalPreview s; generatedImage := v;
     pixelResult := pixelResult s; gridSize := gridSize s;
     tempGridSize := tempGridSize s; maxColors := maxColors s;
     tempMaxColors := tempMaxColors s; isCropping := isCropping s;
     croppedImageBlob := croppedImageBlob s;
     croppedImagePreview := croppedImagePreview s; isLoading := isLoading s;
     error := error s |}.

Definition setPixelResult (v : option PixelResult) (s : AppState) : AppState :=
  {| step := step s; originalFile := originalFile s;
     originalPreview := originalPreview s; generatedImage := generatedImage s;
     pixelResult := v; gridSize := gridSize s; tempGridSize := tempGridSize s;
     maxColors := maxColors s; tempMaxColors := tempMaxColors s;
     isCropping := isCropping s; croppedImageBlob := croppedImageBlob s;
     croppedImagePreview := croppedImagePreview s; isLoading := isLoading s;
     error := error s |}.

Definition setGridSize (v : Z) (s : AppState) : AppState :=
  {| step := step s; originalFile := originalFile s;
     originalPreview := originalPreview s; generatedImage := generatedImage s;
     pixelResult := pixelResult s; gridSize := v; tempGridSize := tempGridSize s;
     maxColors := maxColors s; tempMaxColors := tempMaxColors s;
     isCropping := isCropping s; croppedImageBlob := croppedImageBlob s;
     croppedImagePreview := croppedImagePreview s; isLoading := isLoading s;
     error := error s |}.

Definition setTempGridSize (v : Z) (s : AppState) : AppState :=
  {| step := step s; originalFile := originalFile s;
     originalPreview := originalPreview s; generatedImage := generatedImage s;
     pixelResult := pixelResult s; gridSize := gridSize s; tempGridSize := v;
     maxColors := maxColors s; tempMaxColors := tempMaxColors s;
     isCropping := isCropping s; croppedImageBlob := croppedImageBlob s;
     croppedImagePreview := croppedImagePreview s; isLoading := isLoading s;
     error := error s |}.

Definition setMaxColors (v : Z) (s : AppState) : AppState :=
  {| step := step s; originalFile := originalFile s;
     originalPreview := originalPreview s; generatedImage := generatedImage s;
     pixelResult := pixelResult s; gridSize := gridSize s;
     tempGridSize := tempGridSize s; maxColors := v;
     tempMaxColors := tempMaxColors s; isCropping := isCropping s;
     croppedImageBlob := croppedImageBlob s;
     croppedImagePreview := croppedImagePreview s; isLoading := isLoading s;
     error := error s |}.

Definition setTempMaxColors (v : Z) (s : AppState) : AppState :=
  {| step := step s; originalFile := originalFile s;
     originalPreview := originalPreview s; generatedImage := generatedImage s;
     pixelResult := pixelResult s; gridSize := gridSize s;
     tempGridSize := tempGridSize s; maxColors := maxColors s; tempMaxColors := v;
     isCropping := isCropping s; croppedImageBlob := croppedImageBlob s;
     croppedImagePreview := croppedImagePreview s; isLoading := isLoading s;
     error := error s |}.

Definition setIsCropping (v : bool) (s : AppState) : AppState :=
  {| step := step s; originalFile := originalFile s;
     originalPreview := originalPreview s; generatedImage := generatedImage s;
     pixelResult := pixelResult s; gridSize := gridSize s;
     tempGridSize := tempGridSize s; maxColors := maxColors s;
     tempMaxColors := tempMaxColors s; isCropping := v;
     croppedImageBlob := croppedImageBlob s;
     croppedImagePreview := croppedImagePreview s; isLoading := isLoading s;
     error := error s |}.

Definition setCroppedImageBlob (v : option Blob) (s : AppState) : AppState :=
  {| step := step s; originalFile := originalFile s;
     originalPreview := originalPreview s; generatedImage := generatedImage s;
     pixelResult := pixelResult s; gridSize := gridSize s;
     tempGridSize := tempGridSize s; maxColors := maxColors s;
     tempMaxColors := tempMaxColors s; isCropping := isCropping s;
     croppedImageBlob := v; croppedImagePreview := croppedImagePreview s;
     isLoading := isLoading s; error := error s |}.

Definition setCroppedImagePreview (v : string) (s : AppState) : AppState :=
  {| step := step s; originalFile := originalFile s;
     originalPreview := originalPreview s; generatedImage := generatedImage s;
     pixelResult := pixelResult s; gridSize := gridSize s;
     tempGridSize := tempGridSize s; maxColors := maxColors s;
     tempMaxColors := tempMaxColors s; isCropping := isCropping s;
     croppedImageBlob := croppedImageBlob s; croppedImagePreview := v;
     isLoading := isLoading s; error := error s |}.

Definition setIsLoading (v : bool) (s : AppState) : AppState :=
  {| step := step s; originalFile := originalFile s;
     originalPreview := originalPreview s; generatedImage := generatedImage s;
     pixelResult := pixelResult s; gridSize := gridSize s;
     tempGridSize := tempGridSize s; maxColors := maxColors s;
     tempMaxColors := tempMaxColors s; isCropping := isCropping s;
     croppedImageBlob := croppedImageBlob s;
     croppedImagePreview := croppedImagePreview s; isLoading := v;
     error := error s |}.

Definition setError (v : option string) (s : AppState) : AppState :=
  {| step := step s; originalFile := originalFile s;
     originalPreview := originalPreview s; generatedImage := generatedImage s;
     pixelResult := pixelResult s; gridSize := gridSize s;
     tempGridSize := tempGridSize s; maxColors := maxColors s;
     tempMaxColors := tempMaxColors s; isCropping := isCropping s;
     croppedImageBlob := croppedImageBlob s;
     croppedImagePreview := croppedImagePreview s; isLoading := isLoading s;
     error := v |}.

(** A handler that leaves the four slider values alone. *)
Definition keepsParams (f : AppState -> AppState) : Prop :=
  forall s, gridSize (f s) = gridSize s /\ tempGridSize (f s) = tempGridSize s /\
            maxColors (f s) = maxColors s /\ tempMaxColors (f s) = tempMaxColors s.

(** Handlers read as the sequence of setter calls they make. *)
Notation "s |> f" := (f s) (at level 45, left associativity, only parsing).

Definition newline : string := String (ascii_of_nat 10) "".

(** [handleUpload]; [url] is what [URL.createObjectURL(file)] returned. *)
Definition handleUpload (file : File) (url : string) (s : AppState) : AppState :=
  s |> setOriginalFile (Some file) |> setOriginalPreview url
    |> setCroppedImageBlob None |> setCroppedImagePreview "" |> setIsCropping false
    |> setStep Step2 |> setError None.

(** [showCroppedImage] once [getCroppedImg] has resolved to a blob;
    [url] is what [URL.createObjectURL] returned for it. *)
Definition showCroppedImage_done (b : Blob) (url : string) (s : AppState) : AppState :=
  s |> setCroppedImageBlob (Some b) |> setCroppedImagePreview url |> setIsCropping false.

Definition handleReset (s : AppState) : AppState :=
  s |> setStep Step1 |> setOriginalFile None |> setOriginalPreview ""
    |> setGeneratedImage "" |> setPixelResult None |> setError None
    |> setCroppedImageBlob None |> setCroppedImagePreview "" |> setIsCropping false.

(** The stepper: [step > 1 && setStep(1)] and [step > 2 && setStep(2)]. *)
Definition stepperTo1 (s : AppState) : AppState :=
  match step s with
  | Step1 => s
  | _ => setStep Step1 s
  end.

Definition stepperTo2 (s : AppState) : AppState :=
  match step s with
  | Step3 => setStep Step2 s
  | _ => s
  end.

(** *** handleGenerate *)

(** [croppedImageBlob || originalFile] is non-null. *)
Definition hasImageToSend (s : AppState) : bool :=
  match croppedImageBlob s, originalFile s with
  | None, None => false
  | _, _ => true
  end.

Definition handleGenerate_begin (s : AppState) : AppState :=
  if hasImageToSend s then s |> setIsLoading true |> setError None else s.

(** How the [try] block of [handleGenerate] can end. *)
Inductive GenerateOutcome :=
| GenThrown (e : Thrown)                 (* fetch or json() rejected *)
| GenNotOk (statusText : string)         (* !response.ok *)
| GenOk (image : option string).         (* data.image *)

Definition generateErrorMessage (e : Thrown) : string :=
  match e with
  | TypeError m | Error m => m
  | NotAnError => "生成图片失败"
  end.

Definition handleGenerate_end (o : GenerateOutcome) (s : AppState) : AppState :=
  match o with
  | GenThrown e => s |> setError (Some (generateErrorMessage e)) |> setIsLoading false
  | GenNotOk statusText =>
      s |> setError (Some (generateErrorMessage (Error ("生成失败: " +:+ statusText))))
        |> setIsLoading false
  | GenOk image =>
      if falsy image
      then s |> setError (Some (generateErrorMessage
                                  (Error "Invalid response format from server")))
             |> setIsLoading false
      else s |> setGeneratedImage (or_else image "") |> setIsLoading false
  end.

(** *** handlePixelate *)

(** [generatedImage || croppedImagePreview || originalPreview] *)
Definition sourceImage (s : AppState) : string :=
  if truthy (generatedImage s) then generatedImage s
  else if truthy (croppedImagePreview s) then croppedImagePreview s
  else originalPreview s.

(** The part before the first [await]; it returns early, touching
    nothing, when there is no source image. *)
Definition handlePixelate_begin (s : AppState) : AppState :=
  if truthy (sourceImage s) then s |> setIsLoading true |> setError None else s.

(** How the [try] block of [handlePixelate] can end. [PixThrown] covers
    a rejection of either [fetch], of [blob()] or [json()], and an
    exception while the body is processed. *)
Inductive PixelateOutcome :=
| PixThrown (e : Thrown)
| PixNotOk (status : Z) (statusText : string)
| PixOk (data : PixelateResponse).

Definition pixelateErrorMessage (e : Thrown) : string :=
  match e with
  | TypeError m =>
      if String.eqb m "Failed to fetch"
      then "无法连接到服务器。请检查：" +:+ newline
           +:+ "1. 后端服务是否已启动" +:+ newline
           +:+ "2. Nginx 反向代理配置是否生效 (/api 路径)" +:+ newline +:+ newline
           +:+ "当前请求地址: " +:+ apiUrl +:+ "/generate"
      else m
  | Error m => m
  | NotAnError => "图片像素化失败"
  end.

Definition notOkError (status : Z) (statusText : string) : Thrown :=
  Error ("像素化失败: " +:+ toString10 status +:+ " " +:+ statusText).

(** The part after the [await]s, for a call made with
    [(targetGridSize, targetMaxColors)]. *)
Definition handlePixelate_end (targetGridSize targetMaxColors : Z)
    (o : PixelateOutcome) (s : AppState) : AppState :=
  match o with
  | PixThrown e => s |> setError (Some (pixelateErrorMessage e)) |> setIsLoading false
  | PixNotOk status statusText =>
      s |> setError (Some (pixelateErrorMessage (notOkError status statusText)))
        |> setIsLoading false
  | PixOk data =>
      s |> setPixelResult (Some (toPixelResult data))
        |> setGridSize targetGridSize |> setTempGridSize targetGridSize
        |> setMaxColors targetMaxColors |> setTempMaxColors targetMaxColors
        |> setStep Step3 |> setIsLoading false
  end.

(** A whole call with nothing else happening in between. *)
Definition handlePixelate (targetGridSize targetMaxColors : Z)
    (o : PixelateOutcome) (s : AppState) : AppState :=
  if truthy (sourceImage s)
  then handlePixelate_end targetGridSize targetMaxColors o (handlePixelate_begin s)
  else s.

(** *** The component as a transition system

    A configuration is the React state together with the requests that
    have been sent and not yet answered. A transition is one event
    handler run, or the completion of one pending request; its label is
    the request it sends, if any. Each rule carries the condition under
    which the control that fires it is rendered. *)
Inductive Pending :=
| PendingGenerate
| PendingPixelate (targetGridSize targetMaxColors : Z).

Record Config := { app : AppState; inflight : list Pending }.

Inductive Request :=
| NoRequest
| GenerateRequest
| PixelateRequest (grid_size max_colors : Z).

Definition initialConfig : Config := {| app := initialState; inflight := [] |}.

(** The values an [<input type="range" min max step>] can hold: the
    browser keeps the value on the step grid between [min] and [max]. *)
Definition rangeValue (min max stp v : Z) : bool :=
  (min <=? v) && (v <=? max) && ((v - min) mod stp =? 0).

(** A call [handlePixelate(g, c)] up to its first [await]. *)
Definition callPixelate (g c : Z) (cfg : Config) : Config * Request :=
  if truthy (sourceImage (app cfg))
  then ({| app := handlePixelate_begin (app cfg);
           inflight := PendingPixelate g c :: inflight cfg |},
        PixelateRequest g c)
  else (cfg, NoRequest).

Definition callGenerate (cfg : Config) : Config * Request :=
  if hasImageToSend (app cfg)
  then ({| app := handleGenerate_begin (app cfg);
           inflight := PendingGenerate :: inflight cfg |},
        GenerateRequest)
  else (cfg, NoRequest).

Definition silently (f : AppState -> AppState) (cfg : Config) : Config :=
  {| app := f (app cfg); inflight := inflight cfg |}.

Inductive transition : Config -> Request -> Config -> Prop :=
(* <ImageUploader onImageSelect={handleUpload} />, view 1 *)
| T_upload cfg file url :
    step (app cfg) = Step1 ->
    transition cfg NoRequest (silently (handleUpload file url) cfg)
(* the stepper *)
| T_stepper1 cfg :
    transition cfg NoRequest (silently stepperTo1 cfg)
| T_stepper2 cfg :
    transition cfg NoRequest (silently stepperTo2 cfg)
(* the crop button of view 2, shown while there is no generated image *)
| T_toggleCrop cfg :
    step (app cfg) = Step2 -> generatedImage (app cfg) = "" ->
    transition cfg NoRequest
      (silently (fun s => setIsCropping (negb (isCropping s)) s) cfg)
| T_cropDone cfg b url :
    transition cfg NoRequest (silently (showCroppedImage_done b url) cfg)
(* the AI button of view 2 *)
| T_generate cfg :
    step (app cfg) = Step2 -> generatedImage (app cfg) = "" ->
    isLoading (app cfg) = false ->
    transition cfg (snd (callGenerate cfg)) (fst (callGenerate cfg))
| T_generateDone s before after o :
    transition {| app := s; inflight := before ++ PendingGenerate :: after |}
      NoRequest
      {| app := handleGenerate_end o s; inflight := before ++ after |}
(* the pixelate button of view 2: handlePixelate(64, 15) *)
| T_pixelateDefault cfg :
    step (app cfg) = Step2 -> isLoading (app cfg) = false ->
    transition cfg (snd (callPixelate 64 15 cfg)) (fst (callPixelate 64 15 cfg))
(* the density slider of view 3 *)
| T_densityChange cfg v :
    step (app cfg) = Step3 -> pixelResult (app cfg) <> None ->
    rangeValue 16 128 8 v = true ->
    transition cfg NoRequest (silently (setTempGridSize v) cfg)
| T_densityRelease cfg :
    step (app cfg) = Step3 -> pixelResult (app cfg) <> None ->
    transition cfg
      (snd (callPixelate (tempGridSize (app cfg)) (maxColors (app cfg)) cfg))
      (fst (callPixelate (tempGridSize (app cfg)) (maxColors (app cfg)) cfg))
(* the colour slider of view 3 *)
| T_colorsChange cfg v :
    step (app cfg) = Step3 -> pixelResult (app cfg) <> None ->
    rangeValue 5 30 1 v = true ->
    transition cfg NoRequest (silently (setTempMaxColors v) cfg)
| T_colorsRelease cfg :
    step (app cfg) = Step3 -> pixelResult (app cfg) <> None ->
    transition cfg
      (snd (callPixelate (gridSize (app cfg)) (tempMaxColors (app cfg)) cfg))
      (fst (callPixelate (gridSize (app cfg)) (tempMaxColors (app cfg)) cfg))
| T_pixelateDone s before after g c o :
    transition {| app := s; inflight := before ++ PendingPixelate g c :: after |}
      NoRequest
      {| app := handlePixelate_end g c o s; inflight := before ++ after |}
(* the reset buttons of views 2 and 3 *)
| T_reset cfg :
    step (app cfg) <> Step1 ->
    transition cfg NoRequest (silently handleReset cfg).

Inductive reachable : Config -> Prop :=
| reachable_init : reachable initialConfig
| reachable_step cfg r cfg' :
    reachable cfg -> transition cfg r cfg' -> reachable cfg'.

(** The bounds of the two sliders. *)
Definition gridSizeOk (g : Z) : Prop := 16 <= g <= 128.
Definition maxColorsOk (c : Z) : Prop := 5 <= c <= 30.

Definition requestOk (r : Request) : Prop :=
  match r with
  | PixelateRequest g c => gridSizeOk g /\ maxColorsOk c
  | _ => True
  end.

Definition pendingOk (p : Pending) : Prop :=
  match p with
  | PendingPixelate g c => gridSizeOk g /\ maxColorsOk c
  | PendingGenerate => True
  end.

Definition paramsOk (cfg : Config) : Prop :=
  gridSizeOk (gridSize (app cfg)) /\ gridSizeOk (tempGridSize (app cfg)) /\
  maxColorsOk (maxColors (app cfg)) /\ maxColorsOk (tempMaxColors (app cfg)) /\
  Forall pendingOk (inflight cfg).

(** A whole call of [handleGenerate] with nothing else happening in
    between; it returns early when there is nothing to send. *)
Definition handleGenerate (o : GenerateOutcome) (s : AppState) : AppState :=
  if hasImageToSend s then handleGenerate_end o (handleGenerate_begin s) else s.

(** What the third view and the spinner rely on: a result is there when
    the step is 3, a stored result was built from a response body, and
    [isLoading] is only set while a request is pending. *)
Definition viewInvariant (cfg : Config) : Prop :=
  (step (app cfg) = Step3 -> pixelResult (app cfg) <> None) /\
  (forall r, pixelResult (app cfg) = Some r -> exists data, r = toPixelResult data) /\
  (isLoading (app cfg) = true -> inflight cfg <> []).

End App.

(** ** components/PixelViewer.tsx *)

Module PixelViewer.

Record Props := {
  gridData : list (list string);
  usedPalette : list string;
  width : Z;
  height : Z
}.

Record State := {
  visibleColors : gset string;
  scale : Z;
  showGrid : bool;
  addPadding : bool
}.

(** The initial [useState] values, taken from the props of the mount.
    At the mount the effect on [usedPalette] stores the same set again;
    after a change of props it stores the set of the new palette (see
    [mount] and [react] below). *)
Definition initialState (usedPalette : list string) : State :=
  {| visibleColors := list_to_set usedPalette;
     scale := 10; showGrid := false; addPadding := true |}.

Definition setVisibleColors (v : gset string) (s : State) : State :=
  {| visibleColors := v; scale := scale s;
     showGrid := showGrid s; addPadding := addPadding s |}.

Definition setScale (v : Z) (s : State) : State :=
  {| visibleColors := visibleColors s; scale := v;
     showGrid := showGrid s; addPadding := addPadding s |}.

Definition setShowGrid (v : bool) (s : State) : State :=
  {| visibleColors := visibleColors s; scale := scale s;
     showGrid := v; addPadding := addPadding s |}.

Definition setAddPadding (v : bool) (s : State) : State :=
  {| visibleColors := visibleColors s; scale := scale s;
     showGrid := showGrid s; addPadding := v |}.

(** [toggleColorVisibility]: the new set handed to [setVisibleColors]. *)
Definition toggleColorVisibility (color : string) (visible : gset string)
  : gset string :=
  if decide (color ∈ visible) then visible ∖ {[color]} else visible ∪ {[color]}.

(** [toggleAllColors] *)
Definition toggleAllColors (usedPalette : list string) (visible : gset string)
  : gset string :=
  if decide (size visible = length usedPalette) then ∅ else list_to_set usedPalette.

Definition zoomOut (s : Z) : Z := Z.max 1 (s - 1).
Definition zoomIn (s : Z) : Z := Z.min 50 (s + 1).

(** The user's controls. The eye button of layer [i] calls
    [toggleColorVisibility] with the palette entry it was rendered for. *)
Inductive Event :=
| ClickEye (i : nat)
| ClickToggleAll
| ClickZoomOut
| ClickZoomIn
| ClickGrid
| ClickPadding.

Definition handle (p : Props) (e : Event) (s : State) : State :=
  match e with
  | ClickEye i =>
      match usedPalette p !! i with
      | Some color => setVisibleColors (toggleColorVisibility color (visibleColors s)) s
      | None => s
      end
  | ClickToggleAll =>
      setVisibleColors (toggleAllColors (usedPalette p) (visibleColors s)) s
  | ClickZoomOut => setScale (zoomOut (scale s)) s
  | ClickZoomIn => setScale (zoomIn (scale s)) s
  | ClickGrid => setShowGrid (negb (showGrid s)) s
  | ClickPadding => setAddPadding (negb (addPadding s)) s
  end.

(** The states of a viewer mounted on [p] and clicked, as long as its
    props stay the same; [live] below also follows a change of props. *)
Definition run (p : Props) (es : list Event) : State :=
  foldl (fun s e => handle p e s) (initialState (usedPalette p)) es.

(** *** The drawing effect

    Modelled first: the size given to the canvas and the calls made by
    the loop over [gridData]. The checkerboard under the cells and the
    optional grid lines over them follow further down. *)
Definition canvasWidth (p : Props) (s : State) : Z :=
  width p * scale s + (if addPadding s then scale s * 2 else 0).

Definition canvasHeight (p : Props) (s : State) : Z :=
  height p * scale s + (if addPadding s then scale s * 2 else 0).

(** [ctx.fillStyle = color; ctx.fillRect(x, y, w, h)] *)
Record FillRect := { fillStyle : string; rx : Z; ry : Z; rw : Z; rh : Z }.

Definition paintCell (visible : gset string) (scale : Z) (y x : nat) (color : string)
  : list FillRect :=
  if decide (color ∈ visible)
  then [ {| fillStyle := color;
            rx := Z.of_nat x * scale; ry := Z.of_nat y * scale;
            rw := scale; rh := scale |} ]
  else [].

Definition paintRow (visible : gset string) (scale : Z) (y : nat) (row : list string)
  : list FillRect :=
  concat (imap (paintCell visible scale y) row).

Definition paintCells (visible : gset string) (scale : Z) (grid : list (list string))
  : list FillRect :=
  concat (imap (paintRow visible scale) grid).

(** The props [App] renders the viewer with. *)
Definition propsOf (r : App.PixelResult) : Props :=
  {| gridData := App.gridData r; usedPalette := App.usedPalette r;
     width := App.width r; height := App.height r |}.

(** *** The rest of the drawing effect *)

(** [ctx.translate(scale, scale)] when the padding is on: where the
    origin of the grid lies on the canvas, in both directions. *)
Definition origin (s : State) : Z := if addPadding s then scale s else 0.

(** The white background drawn first when the padding is on:
    [fillRect(0, 0, canvas.width, canvas.height)] in ['#ffffff']. *)
Definition paintBorder (p : Props) (s : State) : list FillRect :=
  if addPadding s
  then [ {| fillStyle := "#ffffff"; rx := 0; ry := 0;
            rw := canvasWidth p s; rh := canvasHeight p s |} ]
  else [].

(** A counting loop [for (let x = x0; continue(x); x += stp)]: the
    values of [x] its body runs with, for at most [fuel] iterations. *)
Fixpoint forLoop (fuel : nat) (x : Z) (continue : Z -> bool) (stp : Z) : list Z :=
  match fuel with
  | O => []
  | S fuel' =>
      if continue x then x :: forLoop fuel' (x + stp) continue stp else []
  end.

Definition patternSize : Z := 10.

(** [(x / patternSize + y / patternSize) % 2 === 0 ? '#f8fafc' : '#ffffff'];
    the loops only reach multiples of [patternSize], for which the
    divisions are exact. *)
Definition checkerStyle (x y : Z) : string :=
  if (x / patternSize + y / patternSize) mod 2 =? 0 then "#f8fafc" else "#ffffff".

(** [for (let x = 0; x < width * scale; x += patternSize)]; the loop
    cannot run more often than its bound is large. *)
Definition checkerXs (p : Props) (s : State) : list Z :=
  forLoop (Z.to_nat (width p * scale s)) 0 (fun x => x <? width p * scale s) patternSize.

Definition checkerYs (p : Props) (s : State) : list Z :=
  forLoop (Z.to_nat (height p * scale s)) 0 (fun y => y <? height p * scale s) patternSize.

(** The tiles of the checkerboard, in the order they are filled. *)
Definition checkerboard (p : Props) (s : State) : list FillRect :=
  concat (map (fun x =>
                 map (fun y => {| fillStyle := checkerStyle x y; rx := x; ry := y;
                                  rw := patternSize; rh := patternSize |})
                     (checkerYs p s))
              (checkerXs p s)).

(** [moveTo(x1, y1); lineTo(x2, y2)] *)
Record Segment := { x1 : Z; y1 : Z; x2 : Z; y2 : Z }.

(** [for (let x = 0; x <= width; x++)] *)
Definition gridXs (p : Props) : list Z :=
  forLoop (Z.to_nat (width p + 1)) 0 (fun x => x <=? width p) 1.

Definition gridYs (p : Props) : list Z :=
  forLoop (Z.to_nat (height p + 1)) 0 (fun y => y <=? height p) 1.

(** The path stroked when [showGrid && scale > 4]: first the vertical
    lines, then the horizontal ones; nothing is stroked otherwise. *)
Definition gridLines (p : Props) (s : State) : list Segment :=
  if showGrid s && (scale s >? 4)
  then map (fun x => {| x1 := x * scale s; y1 := 0;
                        x2 := x * scale s; y2 := height p * scale s |}) (gridXs p)
       ++ map (fun y => {| x1 := 0; y1 := y * scale s;
                           x2 := width p * scale s; y2 := y * scale s |}) (gridYs p)
  else [].

(** The grid the response promises: [height] rows of [width] cells. *)
Definition wellShaped (p : Props) : Prop :=
  Z.of_nat (length (gridData p)) = height p /\
  Forall (fun row => Z.of_nat (length row) = width p) (gridData p).

(** The number of times [for (x = x0; x < limit; x += stp)] runs its
    body, for a positive step. *)
Definition iterations (x limit stp : Z) : nat :=
  Z.to_nat ((limit - x + stp - 1) / stp).

(** *** The viewer over its life

    [App] keeps one viewer mounted while it replaces [pixelResult] at
    step 3, so the state of the viewer outlives the props it was set
    for. The [useState] initialiser runs at the mount only. The effect
    on [usedPalette], which resets [visibleColors], is declared before
    the drawing effect; its [setVisibleColors] takes hold in the next
    render, after the drawing effect has run once in the render that
    brought the new props. *)

(** One run of the drawing effect: the props and the state of the
    render it belongs to. *)
Record Draw := { drawProps : Props; drawState : State }.

(** The calls the cell loop makes in that run. *)
Definition drawCells (d : Draw) : list FillRect :=
  paintCells (visibleColors (drawState d)) (scale (drawState d))
    (gridData (drawProps d)).

(** A mounted viewer: the props of its last render and its state. *)
Record Viewer := { props : Props; state : State }.

(** What happens to a mounted viewer: a click on one of its controls,
    or a render with the props of a new result. *)
Inductive Input :=
| Click (e : Event)
| NewProps (p : Props).

(** The mount. The first render has the initial state; its effects
    store a new [Set] of the palette and draw. The new [Set] is another
    object, so a second render follows, and the drawing effect, which
    depends on [visibleColors], runs again. *)
Definition mount (p : Props) : Viewer * list Draw :=
  let s0 := initialState (usedPalette p) in
  let s1 := setVisibleColors (list_to_set (usedPalette p)) s0 in
  ({| props := p; state := s1 |},
   [ {| drawProps := p; drawState := s0 |}; {| drawProps := p; drawState := s1 |} ]).

(** Whether a click changes a dependency of the drawing effect: a toggle
    always stores a new object or the other boolean, a zoom at its bound
    stores the number that was there, and a layer that does not exist
    has no eye button. *)
Definition redraws (p : Props) (e : Event) (s : State) : bool :=
  match e with
  | ClickEye i => bool_decide (is_Some (usedPalette p !! i))
  | ClickZoomOut => negb (zoomOut (scale s) =? scale s)
  | ClickZoomIn => negb (zoomIn (scale s) =? scale s)
  | ClickToggleAll | ClickGrid | ClickPadding => true
  end.

(** One input: the viewer afterwards and the runs of the drawing effect
    it causes, in order. New props are first drawn with the state as it
    is, then with [visibleColors] reset to the new palette. *)
Definition react (v : Viewer) (i : Input) : Viewer * list Draw :=
  match i with
  | Click e =>
      let s' := handle (props v) e (state v) in
      ({| props := props v; state := s' |},
       if redraws (props v) e (state v)
       then [ {| drawProps := props v; drawState := s' |} ]
       else [])
  | NewProps p' =>
      let s' := setVisibleColors (list_to_set (usedPalette p')) (state v) in
      ({| props := p'; state := s' |},
       [ {| drawProps := p'; drawState := state v |};
         {| drawProps := p'; drawState := s' |} ])
  end.

Definition liveFrom (v : Viewer) (inputs : list Input) : Viewer * list Draw :=
  foldl (fun acc i => (fst (react (fst acc) i), snd acc ++ snd (react (fst acc) i)))
        (v, []) inputs.

(** A viewer mounted on [p] and everything drawn since. *)
Definition live (p : Props) (inputs : list Input) : Viewer * list Draw :=
  (fst (liveFrom (fst (mount p)) inputs),
   snd (mount p) ++ snd (liveFrom (fst (mount p)) inputs)).

(** The visible set belongs to the palette, the zoom is in its bounds. *)
Definition settledState (p : Props) (s : State) : Prop :=
  visibleColors s ⊆ list_to_set (usedPalette p) /\ 1 <= scale s <= 50.

(** The cell of column [x] and row [y] is painted in a run of the
    drawing effect: the cell loop fills a rectangle at its position. *)
Definition paintsCell (d : Draw) (y x : nat) : Prop :=
  exists f, f ∈ drawCells d /\
            rx f = Z.of_nat x * scale (drawState d) /\
            ry f = Z.of_nat y * scale (drawState d).

End PixelViewer.

(** ** components/ImageUploader.tsx *)

Module ImageUploader.
Import Js.

(** What a handler run does that is visible outside it: the calls of
    the [onImageSelect] prop, in order, and the values it leaves in
    [isDragging] and in the file input. *)
Record DropEffect := {
  drop_selected : list File;
  drop_isDragging : bool
}.

Record SelectEffect := {
  select_selected : list File;
  select_inputValue : string
}.

(** [handleDrop], on [e.dataTransfer.files] ([None] for a null list). *)
Definition handleDrop (files : option (list File)) : DropEffect :=
  {| drop_selected :=
       match files with
       | Some (file :: _) =>
           if String.prefix "image/" (type file) then [file] else []
       | _ => []
       end;
     drop_isDragging := false |}.

(** [handleFileSelect], on [e.target.files]. *)
Definition handleFileSelect (files : option (list File)) : SelectEffect :=
  {| select_selected :=
       match files with
       | Some (file :: _) => [file]
       | _ => []
       end;
     select_inputValue := "" |}.

End ImageUploader.

(** ** Colour strings *)

Module Css.

(** The colour notation [rgbToHex] aims at: ["#"] followed by exactly
    six lower-case hexadecimal digits. *)
Definition isHexDigit (c : ascii) : bool :=
  existsb (Ascii.eqb c) (list_ascii_of_string "0123456789abcdef").

Fixpoint allHexDigits (s : string) : bool :=
  match s with
  | EmptyString => true
  | String c rest => isHexDigit c && allHexDigits rest
  end.

Definition isCssHexColor (s : string) : bool :=
  match s with
  | String c digits =>
      Ascii.eqb c "#" && (String.length digits =? 6)%nat && allHexDigits digits
  | EmptyString => false
  end.

(** The hexadecimal notation of a colour spelled out, independently of
    [rgbToHex]: two digits per channel, the high one first. *)
Definition hexDigit (d : Z) : ascii :=
  nth (Z.to_nat d) (list_ascii_of_string "0123456789abcdef") "0"%char.

Definition hexByte (x : Z) : string :=
  String (hexDigit (x / 16)) (String (hexDigit (x mod 16)) EmptyString).

Definition hexColor (c : Z * Z * Z) : string :=
  let '(r, g, b) := c in
  String "#"%char (hexByte r +:+ hexByte g +:+ hexByte b).

End Css.

(** ** Concrete inputs used in the examples below *)

Module Samples.
Import Js App.

(** A response with a white and a black bead; the cell in the lower left
    corner carries an id that is in no palette entry. *)
Definition blackAndWhite : PixelateResponse :=
  {| used_palette := Some [ {| entry_id := "H02"; entry_rgb := (255, 255, 255) |};
                            {| entry_id := "H07"; entry_rgb := (0, 0, 0) |} ];
     grid_data := [ ["H02"; "H07"]; [""; "H02"] ];
     data_width := 2; data_height := 2; data_preview := "data:image/png;base64," |}.

(** Two catalog entries with different ids and the same colour. *)
Definition twoWhites : PixelateResponse :=
  {| used_palette := Some [ {| entry_id := "H02"; entry_rgb := (255, 255, 255) |};
                            {| entry_id := "P01"; entry_rgb := (255, 255, 255) |} ];
     grid_data := [ ["H02"; "P01"] ];
     data_width := 2; data_height := 1; data_preview := "" |}.

(** One white bead on a diagonal, the rest background. *)
Definition whiteOnly : PixelateResponse :=
  {| used_palette := Some [ {| entry_id := "H02"; entry_rgb := (255, 255, 255) |} ];
     grid_data := [ ["H02"; ""]; [""; "H02"] ];
     data_width := 2; data_height := 2; data_preview := "" |}.

Definition sampleFile : File := {| name := "cat.png"; type := "image/png" |}.

Definition uploadedState : AppState := handleUpload sampleFile "blob:cat" initialState.

Definition viewingState : AppState :=
  handlePixelate 32 10 (PixOk twoWhites)
    (setGeneratedImage "data:image/png;base64,AA" uploadedState).

Definition uploadedConfig : Config :=
  silently (handleUpload sampleFile "blob:cat") initialConfig.

Definition pixelatingConfig : Config := fst (callPixelate 64 15 uploadedConfig).

Definition blackAndWhiteProps : PixelViewer.Props :=
  PixelViewer.propsOf (toPixelResult blackAndWhite).

(** The same id twice, with two different colours. *)
Definition twoReds : PixelateResponse :=
  {| used_palette := Some [ {| entry_id := "H05"; entry_rgb := (255, 0, 0) |};
                            {| entry_id := "H05"; entry_rgb := (200, 0, 0) |} ];
     grid_data := [ ["H05"] ];
     data_width := 1; data_height := 1; data_preview := "" |}.

(** A body whose [used_palette] is not an array. *)
Definition noPalette : PixelateResponse :=
  {| used_palette := None;
     grid_data := [ ["H02"; "H07"]; ["H07"; "H02"] ];
     data_width := 2; data_height := 2; data_preview := "" |}.

Definition whiteOnlyProps : PixelViewer.Props :=
  PixelViewer.propsOf (toPixelResult whiteOnly).

(** The viewer of [whiteOnly] after a click on the grid button. *)
Definition gridOnState : PixelViewer.State :=
  PixelViewer.run whiteOnlyProps [PixelViewer.ClickGrid].

(** [pixelatingConfig] once its request has been answered. *)
Definition viewingConfig : Config :=
  {| app := handlePixelate_end 64 15 (PixOk blackAndWhite) (app pixelatingConfig);
     inflight := [] |}.

(** A body whose grid names a bead that [used_palette] does not list. *)
Definition missingEntry : PixelateResponse :=
  {| used_palette := Some [ {| entry_id := "H02"; entry_rgb := (255, 255, 255) |} ];
     grid_data := [ ["H02"; "H05"] ];
     data_width := 2; data_height := 1; data_preview := "" |}.

(** The viewer mounted on the result of [blackAndWhite]. *)
Definition blackAndWhiteViewer : PixelViewer.Viewer :=
  fst (PixelViewer.mount blackAndWhiteProps).

End Samples.

Import Js App Samples.
Import Css.

(** * Properties *)

(** ** Strings and lists *)

Lemma string_app_inj_length (a a' b b' : string) :
  String.length a = String.length a' -> a +:+ b = a' +:+ b' -> a = a' /\ b = b'.
Proof.
  revert a'. induction a as [|c a IH]; intros [|c' a'] Hlen Heq; simpl in *;
    try discriminate.
  - done.
  - injection Heq as -> Heq. injection Hlen as Hlen.
    destruct (IH a' Hlen Heq) as [-> ->]. done.
Qed.

(** A function is injective on the elements of a list whose image has no
    duplicates. *)
Lemma NoDup_fmap_inj_on {A B} (f : A -> B) (l : list A) :
  NoDup (f <$> l) -> forall x y, x ∈ l -> y ∈ l -> f x = f y -> x = y.
Proof.
  induction l as [|a l IH]; intros Hnd x y Hx Hy Hf.
  - inversion Hx.
  - rewrite fmap_cons in Hnd. apply NoDup_cons in Hnd as [Hna Hnd].
    apply elem_of_cons in Hx as [->|Hx]; apply elem_of_cons in Hy as [->|Hy]; auto.
    + exfalso. apply Hna. rewrite Hf. by apply list_elem_of_fmap_2.
    + exfalso. apply Hna. rewrite <- Hf. by apply list_elem_of_fmap_2.
Qed.

Lemma elem_of_concat {A} (ls : list (list A)) (a : A) :
  a ∈ concat ls <-> exists l, l ∈ ls /\ a ∈ l.
Proof.
  rewrite list_elem_of_In, in_concat. split; intros (l & H1 & H2); exists l.
  - by rewrite !list_elem_of_In.
  - by rewrite <- !list_elem_of_In.
Qed.

(** [x || d] takes its right operand exactly when the left one is falsy. *)
Lemma or_else_falsy (o : option string) (d : string) :
  or_else o d = if falsy o then d else default d o.
Proof. destruct o as [s|]; simpl; [|done]. by destruct (truthy s). Qed.

(** ** rgbToHex *)

Example rgbToHex_examples :
  rgbToHex 255 0 10 = "#ff000a" /\ rgbToHex 0 0 0 = "#000000" /\
  rgbToHex 256 17 17 = "#1001111" /\ rgbToHex 16 1 273 = "#1001111".
Proof. repeat split. Qed.

(** The 256 byte values print as 256 different strings of two characters
    (checked by running [padHex] on each of them). *)
Lemma padHex_bytes_NoDup : NoDup (padHex <$> seqZ 0 256).
Proof. apply (bool_decide_unpack _). vm_compute. reflexivity. Qed.

Lemma padHex_bytes_length :
  Forall (fun x => String.length (padHex x) = 2%nat) (seqZ 0 256).
Proof. apply (bool_decide_unpack _). vm_compute. reflexivity. Qed.

Lemma padHex_byte_length x : byte x -> String.length (padHex x) = 2%nat.
Proof.
  intros Hx. pose proof padHex_bytes_length as H.
  rewrite Forall_forall in H. apply H. apply elem_of_seqZ. unfold byte in Hx. lia.
Qed.

Lemma padHex_byte_inj x y : byte x -> byte y -> padHex x = padHex y -> x = y.
Proof.
  unfold byte. intros Hx Hy.
  apply (NoDup_fmap_inj_on padHex (seqZ 0 256) padHex_bytes_NoDup);
    apply elem_of_seqZ; lia.
Qed.

Lemma rgbToHex_unfold r g b :
  rgbToHex r g b = String "#" (padHex r +:+ padHex g +:+ padHex b).
Proof. reflexivity. Qed.

(** On byte channels [rgbToHex] loses nothing; off them it does (see
    [rgbToHex_examples]). *)
Lemma rgbToHex_byte_inj r g b r' g' b' :
  byteTriple (r, g, b) -> byteTriple (r', g', b') ->
  rgbToHex r g b = rgbToHex r' g' b' -> (r, g, b) = (r', g', b').
Proof.
  intros (Hr & Hg & Hb) (Hr' & Hg' & Hb'). simpl in *.
  rewrite !rgbToHex_unfold. intros Heq. injection Heq as Heq.
  apply string_app_inj_length in Heq as [Er Heq];
    [|by rewrite !padHex_byte_length].
  apply string_app_inj_length in Heq as [Eg Eb];
    [|by rewrite !padHex_byte_length].
  apply padHex_byte_inj in Er, Eg, Eb; auto. congruence.
Qed.

Lemma entryHex_byte_inj p q :
  byteTriple (entry_rgb p) -> byteTriple (entry_rgb q) ->
  entryHex p = entryHex q -> entry_rgb p = entry_rgb q.
Proof.
  unfold entryHex. destruct (entry_rgb p) as [[r g] b], (entry_rgb q) as [[r' g'] b'].
  apply rgbToHex_byte_inj.
Qed.

(** A hex string starts with ["#"], so it is never falsy. *)
Lemma rgbToHex_truthy r g b : truthy (rgbToHex r g b) = true.
Proof. reflexivity. Qed.

Lemma entryHex_truthy p : truthy (entryHex p) = true.
Proof. unfold entryHex. destruct (entry_rgb p) as [[r g] b]. apply rgbToHex_truthy. Qed.

(** ** The palette loop of handlePixelate *)

Lemma foldl_paletteStep_snoc acc ps p :
  foldl paletteStep acc (ps ++ [p]) = paletteStep (foldl paletteStep acc ps) p.
Proof. by rewrite foldl_app. Qed.

(** [paletteHexList] has one hex string per entry, in the order of the
    response. *)
Lemma paletteHexList_spec data : paletteHexList data = entryHex <$> paletteEntries data.
Proof.
  unfold paletteHexList, buildPalette.
  induction (paletteEntries data) as [|p ps IH] using rev_ind; [done|].
  rewrite foldl_paletteStep_snoc, fmap_app. simpl. by rewrite IH.
Qed.

(** An id that no entry carries is not a key of [paletteMap]. *)
Lemma paletteMap_lookup_absent data k :
  k ∉ entry_id <$> paletteEntries data -> paletteMap data !! k = None.
Proof.
  unfold paletteMap, buildPalette.
  induction (paletteEntries data) as [|p ps IH] using rev_ind; intros Hk; [done|].
  rewrite foldl_paletteStep_snoc. simpl.
  rewrite fmap_app in Hk. rewrite not_elem_of_app in Hk. destruct Hk as [Hps Hp].
  rewrite lookup_insert_ne; [auto|]. intros Heq. apply Hp. rewrite <- Heq.
  apply list_elem_of_here.
Qed.

(** An id that some entry carries is mapped to the hex string of an entry
    with that id (the last one, were there several). *)
Lemma paletteMap_lookup_present data k :
  k ∈ entry_id <$> paletteEntries data ->
  exists p, p ∈ paletteEntries data /\ entry_id p = k /\
            paletteMap data !! k = Some (entryHex p).
Proof.
  unfold paletteMap, buildPalette.
  induction (paletteEntries data) as [|p ps IH] using rev_ind; intros Hk.
  - inversion Hk.
  - rewrite foldl_paletteStep_snoc. simpl.
    destruct (decide (entry_id p = k)) as [<-|Hne].
    + exists p. rewrite lookup_insert_eq. split; [|done].
      apply elem_of_app. right. apply list_elem_of_here.
    + rewrite lookup_insert_ne by done.
      rewrite fmap_app in Hk. apply elem_of_app in Hk as [Hk|Hk].
      * destruct (IH Hk) as (q & Hq & Hid & Hl). exists q.
        split; [|done]. apply elem_of_app. by left.
      * apply list_elem_of_singleton in Hk. congruence.
Qed.

Lemma gridHex_lookup data y row :
  grid_data data !! y = Some row ->
  gridHex data !! y = Some (map (cellHex (paletteMap data)) row).
Proof.
  intros H. unfold gridHex. change map with (@fmap list _) at 1.
  by rewrite list_lookup_fmap, H.
Qed.

Lemma gridHex_cell data y x row cellId :
  grid_data data !! y = Some row -> row !! x = Some cellId ->
  gridHex data !! y ≫= (.!! x) = Some (cellHex (paletteMap data) cellId).
Proof.
  intros Hy Hx. rewrite (gridHex_lookup _ _ _ Hy). simpl.
  change map with (@fmap list _). by rewrite list_lookup_fmap, Hx.
Qed.

Example toPixelResult_blackAndWhite :
  toPixelResult blackAndWhite =
  {| gridData := [ ["#ffffff"; "#000000"]; ["#000000"; "#ffffff"] ];
     usedPalette := ["#ffffff"; "#000000"];
     width := 2; height := 2; preview := "data:image/png;base64," |}.
Proof. vm_compute. reflexivity. Qed.

(** Entries processed later do not disturb a key they do not carry. *)
Lemma foldl_paletteStep_lookup_other acc qs k :
  k ∉ entry_id <$> qs ->
  fst (foldl paletteStep acc qs) !! k = fst acc !! k.
Proof.
  revert acc. induction qs as [|q qs IH]; intros acc Hk; [done|].
  rewrite fmap_cons in Hk. apply not_elem_of_cons in Hk as [Hq Hqs].
  simpl. rewrite IH by done. simpl. by rewrite lookup_insert_ne.
Qed.

Lemma foldl_paletteStep_app acc ps qs :
  foldl paletteStep acc (ps ++ qs) = foldl paletteStep (foldl paletteStep acc ps) qs.
Proof. apply foldl_app. Qed.

(** [padHex] prints a byte as its two hexadecimal digits (checked on
    each of the 256 bytes). *)
Lemma padHex_bytes_hexByte : Forall (fun x => padHex x = hexByte x) (seqZ 0 256).
Proof. apply (bool_decide_unpack _). vm_compute. reflexivity. Qed.

Lemma padHex_hexByte x : byte x -> padHex x = hexByte x.
Proof.
  intros Hx. pose proof padHex_bytes_hexByte as H. rewrite Forall_forall in H.
  apply H. apply elem_of_seqZ. unfold byte in Hx. lia.
Qed.

Lemma rgbToHex_hexColor r g b :
  byteTriple (r, g, b) -> rgbToHex r g b = hexColor (r, g, b).
Proof.
  intros (Hr & Hg & Hb). simpl in *. rewrite rgbToHex_unfold. unfold hexColor.
  by rewrite !padHex_hexByte.
Qed.

Lemma entryHex_hexColor p :
  byteTriple (entry_rgb p) -> entryHex p = hexColor (entry_rgb p).
Proof.
  unfold entryHex. destruct (entry_rgb p) as [[r g] b]. apply rgbToHex_hexColor.
Qed.

Lemma entryHex_black p :
  byteTriple (entry_rgb p) -> (entryHex p = "#000000" <-> entry_rgb p = (0, 0, 0)).
Proof.
  intros Hbytes. unfold entryHex in *. destruct (entry_rgb p) as [[r g] b]. split.
  - intros Hblack. apply (rgbToHex_byte_inj r g b 0 0 0); [done| |done].
    unfold byteTriple, byte. simpl. lia.
  - by intros [= -> -> ->].
Qed.

(** The last entry that carries a given id. *)
Lemma last_entry_with_id (entries : list PaletteEntry) (k : string) :
  k ∈ entry_id <$> entries ->
  exists ps p qs, entries = ps ++ p :: qs /\ entry_id p = k /\ k ∉ entry_id <$> qs.
Proof.
  intros Hin. apply list_elem_of_split_r in Hin as (ids1 & ids2 & Hsplit & Hlast).
  apply fmap_app_inv in Hsplit as (ps & rest & -> & Hrest & ->).
  symmetry in Hrest. apply fmap_cons_inv in Hrest as (p & qs & -> & -> & ->).
  by exists ps, p, qs.
Qed.

(** The map keeps the hex string of the last entry carrying an id. *)
Lemma paletteMap_lookup_last data ps p qs :
  paletteEntries data = ps ++ p :: qs -> entry_id p ∉ entry_id <$> qs ->
  paletteMap data !! entry_id p = Some (entryHex p).
Proof.
  intros Hsplit Hlast. unfold paletteMap, buildPalette. rewrite Hsplit.
  rewrite (foldl_paletteStep_app _ ps (p :: qs)). simpl.
  rewrite foldl_paletteStep_lookup_other by done. simpl.
  apply lookup_insert_eq.
Qed.

(** Two cells that show ["#000000"]: a bead whose entry is black, and a
    bead id that [used_palette] does not list. *)
Lemma C1_counterexample :
  (grid_data blackAndWhite !! 0%nat ≫= (.!! 1%nat) = Some "H07" /\
   "H07" ∈ entry_id <$> paletteEntries blackAndWhite /\
   gridData (toPixelResult blackAndWhite) !! 0%nat ≫= (.!! 1%nat) = Some "#000000") /\
  (grid_data missingEntry !! 0%nat ≫= (.!! 1%nat) = Some "H05" /\
   ("H05" ∉ entry_id <$> paletteEntries missingEntry) /\
   gridData (toPixelResult missingEntry) !! 0%nat ≫= (.!! 1%nat) = Some "#000000").
Proof.
  split; (split; [reflexivity|]); (split; [|vm_compute; reflexivity]);
    apply (bool_decide_unpack _); vm_compute; reflexivity.
Qed.

(** C1, amended. For every response and every cell of its grid: when
    the id of the cell is listed in [used_palette], the cell of the
    displayed grid holds the hex string of the last entry with that id;
    the lookup in [paletteMap] yields it and it is truthy, so that [||]
    does not take its right operand; the string is one of [usedPalette];
    when the ids are distinct the entry is the only one with the id; for
    byte channels the string is ['#'] and the two hexadecimal digits of
    each channel ([hexColor]), and it is ["#000000"] exactly for an entry
    that is black. When no entry carries the id, the lookup fails and the
    cell holds the fallback ["#000000"], whatever the id is. *)
Theorem C1_cell_colour_for_every_response
    (data : PixelateResponse) (y x : nat) (row : list string) (cellId : string) :
  grid_data data !! y = Some row -> row !! x = Some cellId ->
  (cellId ∈ entry_id <$> paletteEntries data ->
   exists ps p qs,
     paletteEntries data = ps ++ p :: qs /\ entry_id p = cellId /\
     (cellId ∉ entry_id <$> qs) /\
     paletteMap data !! cellId = Some (entryHex p) /\
     falsy (paletteMap data !! cellId) = false /\
     gridData (toPixelResult data) !! y ≫= (.!! x) = Some (entryHex p) /\
     entryHex p ∈ usedPalette (toPixelResult data) /\
     (NoDup (entry_id <$> paletteEntries data) ->
      forall q, q ∈ paletteEntries data -> entry_id q = cellId -> q = p) /\
     (byteTriple (entry_rgb p) ->
      entryHex p = hexColor (entry_rgb p) /\
      (entryHex p = "#000000" <-> entry_rgb p = (0, 0, 0)))) /\
  (cellId ∉ entry_id <$> paletteEntries data ->
   paletteMap data !! cellId = None /\
   gridData (toPixelResult data) !! y ≫= (.!! x) = Some "#000000").
Proof.
  intros Hy Hx. split.
  - intros Hin.
    destruct (last_entry_with_id _ _ Hin) as (ps & p & qs & Hsplit & Hid & Hlast).
    assert (Hget : paletteMap data !! cellId = Some (entryHex p)).
    { rewrite <- Hid. apply (paletteMap_lookup_last data ps p qs); [done|].
      by rewrite Hid. }
    assert (Hp : p ∈ paletteEntries data).
    { rewrite Hsplit. apply elem_of_app. right. apply list_elem_of_here. }
    exists ps, p, qs. split; [done|]. split; [done|]. split; [done|].
    split; [done|]. split; [|split; [|split; [|split]]].
    + rewrite Hget. simpl. by rewrite entryHex_truthy.
    + simpl. rewrite (gridHex_cell data y x row cellId Hy Hx).
      unfold cellHex. rewrite Hget. simpl. by rewrite entryHex_truthy.
    + simpl. rewrite paletteHexList_spec. by apply list_elem_of_fmap_2.
    + intros Hnd q Hq Hqid.
      apply (NoDup_fmap_inj_on entry_id (paletteEntries data) Hnd); congruence.
    + intros Hbytes. split; [by apply entryHex_hexColor|by apply entryHex_black].
  - intros Hout. pose proof (paletteMap_lookup_absent data cellId Hout) as Hnone.
    split; [done|].
    simpl. rewrite (gridHex_cell data y x row cellId Hy Hx).
    unfold cellHex. by rewrite Hnone.
Qed.

Lemma C1_witness :
  (grid_data blackAndWhite !! 0%nat = Some ["H02"; "H07"] /\
   ["H02"; "H07"] !! 1%nat = Some "H07") /\
  ("H07" ∈ entry_id <$> paletteEntries blackAndWhite ->
   exists ps p qs,
     paletteEntries blackAndWhite = ps ++ p :: qs /\ entry_id p = "H07" /\
     ("H07" ∉ entry_id <$> qs) /\
     paletteMap blackAndWhite !! "H07" = Some (entryHex p) /\
     falsy (paletteMap blackAndWhite !! "H07") = false /\
     gridData (toPixelResult blackAndWhite) !! 0%nat ≫= (.!! 1%nat)
       = Some (entryHex p) /\
     entryHex p ∈ usedPalette (toPixelResult blackAndWhite) /\
     (NoDup (entry_id <$> paletteEntries blackAndWhite) ->
      forall q, q ∈ paletteEntries blackAndWhite -> entry_id q = "H07" -> q = p) /\
     (byteTriple (entry_rgb p) ->
      entryHex p = hexColor (entry_rgb p) /\
      (entryHex p = "#000000" <-> entry_rgb p = (0, 0, 0)))) /\
  ("H07" ∉ entry_id <$> paletteEntries blackAndWhite ->
   paletteMap blackAndWhite !! "H07" = None /\
   gridData (toPixelResult blackAndWhite) !! 0%nat ≫= (.!! 1%nat) = Some "#000000").
Proof.
  split; [split; reflexivity|].
  exact (C1_cell_colour_for_every_response blackAndWhite 0 1 ["H02"; "H07"] "H07"
           eq_refl eq_refl).
Defined.

Example hexColor_examples :
  hexColor (255, 0, 10) = "#ff000a" /\ hexColor (0, 0, 0) = "#000000" /\
  hexColor (200, 0, 0) = "#c80000".
Proof. repeat split. Qed.

(** Two entries with distinct ids and one colour give a [usedPalette] with
    the same hex string twice. *)
Lemma C3_counterexample :
  NoDup (entry_id <$> paletteEntries twoWhites) /\
  usedPalette (toPixelResult twoWhites) = ["#ffffff"; "#ffffff"] /\
  ~ NoDup (usedPalette (toPixelResult twoWhites)).
Proof.
  split; [|split].
  - apply (bool_decide_unpack _). vm_compute. reflexivity.
  - vm_compute. reflexivity.
  - apply (bool_decide_unpack _). vm_compute. reflexivity.
Qed.

(** C3, amended. [usedPalette] is the list of the entries' hex strings in
    the order of [used_palette]; it has no duplicates when the entries'
    RGB triples are pairwise distinct and every channel is a byte. *)
Theorem C3_usedPalette_distinct_for_distinct_rgb (data : PixelateResponse) :
  Forall (fun p => byteTriple (entry_rgb p)) (paletteEntries data) ->
  NoDup (entry_rgb <$> paletteEntries data) ->
  usedPalette (toPixelResult data) = entryHex <$> paletteEntries data /\
  NoDup (usedPalette (toPixelResult data)).
Proof.
  intros Hbytes Hnd. simpl. rewrite paletteHexList_spec. split; [done|].
  rewrite Forall_forall in Hbytes.
  apply NoDup_fmap_2_strong.
  - intros p q Hp Hq Heq.
    assert (Hrgb : entry_rgb p = entry_rgb q)
      by (apply entryHex_byte_inj; auto).
    apply (NoDup_fmap_inj_on entry_rgb (paletteEntries data) Hnd); auto.
  - by apply NoDup_fmap_1 in Hnd.
Qed.

Lemma C3_witness :
  (Forall (fun p => byteTriple (entry_rgb p)) (paletteEntries blackAndWhite) /\
   NoDup (entry_rgb <$> paletteEntries blackAndWhite)) /\
  usedPalette (toPixelResult blackAndWhite)
    = entryHex <$> paletteEntries blackAndWhite /\
  NoDup (usedPalette (toPixelResult blackAndWhite)).
Proof.
  assert (Hb : Forall (fun p => byteTriple (entry_rgb p)) (paletteEntries blackAndWhite)).
  { repeat constructor; simpl; lia. }
  assert (Hn : NoDup (entry_rgb <$> paletteEntries blackAndWhite)).
  { apply (bool_decide_unpack _). vm_compute. reflexivity. }
  split; [split; assumption|].
  exact (C3_usedPalette_distinct_for_distinct_rgb blackAndWhite Hb Hn).
Defined.

(** ** handlePixelate as a state update *)

Lemma handlePixelate_begin_fields s :
  pixelResult (handlePixelate_begin s) = pixelResult s /\
  step (handlePixelate_begin s) = step s /\
  gridSize (handlePixelate_begin s) = gridSize s /\
  maxColors (handlePixelate_begin s) = maxColors s /\
  tempGridSize (handlePixelate_begin s) = tempGridSize s /\
  tempMaxColors (handlePixelate_begin s) = tempMaxColors s.
Proof. unfold handlePixelate_begin. by destruct (truthy (sourceImage s)). Qed.

Lemma handlePixelate_begin_error s :
  truthy (sourceImage s) = true -> error (handlePixelate_begin s) = None.
Proof. unfold handlePixelate_begin. by intros ->. Qed.

(** C7. When the source image is there and the request fails (a fetch or
    the body parsing rejects, or the status is not ok), [handlePixelate]
    sets the error message of that failure and leaves [pixelResult], [step],
    [gridSize] and [maxColors] as they were; when it succeeds the error is
    [null] and [pixelResult] is the object built from the response. The
    last part says the same of the completion alone, whatever the state
    has become in the meantime. *)
Theorem C7_failed_pixelate_leaves_result_untouched (s : AppState) (g c : Z) :
  truthy (sourceImage s) = true ->
  (forall e, let s' := handlePixelate g c (PixThrown e) s in
     error s' = Some (pixelateErrorMessage e) /\
     pixelResult s' = pixelResult s /\ step s' = step s /\
     gridSize s' = gridSize s /\ maxColors s' = maxColors s) /\
  (forall status statusText,
     let s' := handlePixelate g c (PixNotOk status statusText) s in
     error s' = Some ("像素化失败: " +:+ toString10 status +:+ " " +:+ statusText) /\
     pixelResult s' = pixelResult s /\ step s' = step s /\
     gridSize s' = gridSize s /\ maxColors s' = maxColors s) /\
  (forall data, let s' := handlePixelate g c (PixOk data) s in
     error s' = None /\ pixelResult s' = Some (toPixelResult data)) /\
  (forall t o, (forall data, o <> PixOk data) ->
     let t' := handlePixelate_end g c o t in
     is_Some (error t') /\
     pixelResult t' = pixelResult t /\ step t' = step t /\
     gridSize t' = gridSize t /\ maxColors t' = maxColors t).
Proof.
  intros Hsrc.
  destruct (handlePixelate_begin_fields s) as (Hr & Hs & Hg & Hc & _).
  pose proof (handlePixelate_begin_error s Hsrc) as He.
  unfold handlePixelate. rewrite Hsrc.
  split; [|split; [|split]].
  - intros e. simpl. by rewrite Hr, Hs, Hg, Hc.
  - intros status statusText. simpl. by rewrite Hr, Hs, Hg, Hc.
  - intros data. simpl. by rewrite He.
  - intros t [e|status statusText|data] Hno; simpl.
    + eauto.
    + eauto.
    + by destruct (Hno data).
Qed.

Lemma C7_witness :
  truthy (sourceImage uploadedState) = true /\
  (forall e, let s' := handlePixelate 64 15 (PixThrown e) uploadedState in
     error s' = Some (pixelateErrorMessage e) /\
     pixelResult s' = pixelResult uploadedState /\ step s' = step uploadedState /\
     gridSize s' = gridSize uploadedState /\ maxColors s' = maxColors uploadedState) /\
  (forall status statusText,
     let s' := handlePixelate 64 15 (PixNotOk status statusText) uploadedState in
     error s' = Some ("像素化失败: " +:+ toString10 status +:+ " " +:+ statusText) /\
     pixelResult s' = pixelResult uploadedState /\ step s' = step uploadedState /\
     gridSize s' = gridSize uploadedState /\ maxColors s' = maxColors uploadedState) /\
  (forall data, let s' := handlePixelate 64 15 (PixOk data) uploadedState in
     error s' = None /\ pixelResult s' = Some (toPixelResult data)) /\
  (forall t o, (forall data, o <> PixOk data) ->
     let t' := handlePixelate_end 64 15 o t in
     is_Some (error t') /\
     pixelResult t' = pixelResult t /\ step t' = step t /\
     gridSize t' = gridSize t /\ maxColors t' = maxColors t).
Proof.
  split; [reflexivity|].
  apply (C7_failed_pixelate_leaves_result_untouched uploadedState 64 15).
  reflexivity.
Defined.

Example pixelate_http_500 :
  error (handlePixelate 64 15 (PixNotOk 500 "Internal Server Error") uploadedState)
  = Some "像素化失败: 500 Internal Server Error".
Proof. reflexivity. Qed.

(** C5. The [pixelResult] left by a successful [handlePixelate] is a
    function of the five fields of the response body alone: two runs on
    bodies with equal fields store equal results, whatever the two states
    and the two requested parameters were; and [rgbToHex] depends on its
    three arguments only. *)
Theorem C5_pixel_result_is_a_function_of_the_response
    (s1 s2 : AppState) (g1 c1 g2 c2 : Z) (d1 d2 : PixelateResponse) :
  truthy (sourceImage s1) = true -> truthy (sourceImage s2) = true ->
  used_palette d1 = used_palette d2 -> grid_data d1 = grid_data d2 ->
  data_width d1 = data_width d2 -> data_height d1 = data_height d2 ->
  data_preview d1 = data_preview d2 ->
  pixelResult (handlePixelate g1 c1 (PixOk d1) s1)
    = pixelResult (handlePixelate g2 c2 (PixOk d2) s2) /\
  pixelResult (handlePixelate g1 c1 (PixOk d1) s1) = Some (toPixelResult d1) /\
  (forall r g b r' g' b', r = r' -> g = g' -> b = b' ->
     rgbToHex r g b = rgbToHex r' g' b').
Proof.
  intros H1 H2 Hp Hg Hw Hh Hv.
  assert (d1 = d2) as <-.
  { destruct d1, d2; simpl in *; congruence. }
  unfold handlePixelate. rewrite H1, H2. simpl.
  split; [done|]. split; [done|]. congruence.
Qed.

Lemma C5_witness :
  (truthy (sourceImage uploadedState) = true /\
   truthy (sourceImage viewingState) = true) /\
  pixelResult (handlePixelate 64 15 (PixOk blackAndWhite) uploadedState)
    = pixelResult (handlePixelate 16 5 (PixOk blackAndWhite) viewingState) /\
  pixelResult (handlePixelate 64 15 (PixOk blackAndWhite) uploadedState)
    = Some (toPixelResult blackAndWhite) /\
  (forall r g b r' g' b', r = r' -> g = g' -> b = b' ->
     rgbToHex r g b = rgbToHex r' g' b').
Proof.
  split; [split; reflexivity|].
  apply (C5_pixel_result_is_a_function_of_the_response
           uploadedState viewingState 64 15 16 5 blackAndWhite blackAndWhite);
    reflexivity.
Defined.

(** ** The sliders and the requests *)

Lemma rangeValue_bounds lo hi stp v : rangeValue lo hi stp v = true -> lo <= v <= hi.
Proof. unfold rangeValue. rewrite !andb_true_iff, !Z.leb_le. tauto. Qed.

Lemma density_values v :
  rangeValue 16 128 8 v = true <->
  v ∈ [16; 24; 32; 40; 48; 56; 64; 72; 80; 88; 96; 104; 112; 120; 128].
Proof.
  split.
  - intros H. pose proof (rangeValue_bounds _ _ _ _ H) as Hb.
    assert (Hall : Forall (fun v => rangeValue 16 128 8 v = true ->
                v ∈ [16; 24; 32; 40; 48; 56; 64; 72; 80; 88; 96; 104; 112; 120; 128])
              (seqZ 16 113))
      by (apply (bool_decide_unpack _); vm_compute; reflexivity).
    rewrite Forall_forall in Hall. apply Hall; [|done]. apply elem_of_seqZ. lia.
  - revert v. apply Forall_forall. repeat constructor.
Qed.

Lemma colors_values v : rangeValue 5 30 1 v = true <-> v ∈ seqZ 5 26.
Proof.
  split.
  - intros H. apply rangeValue_bounds in H. apply elem_of_seqZ. lia.
  - intros H. apply elem_of_seqZ in H. unfold rangeValue.
    rewrite Z.mod_1_r. rewrite !andb_true_iff, !Z.leb_le, Z.eqb_eq. lia.
Qed.

Lemma paramsOk_silently f cfg :
  keepsParams f -> paramsOk cfg -> paramsOk (silently f cfg).
Proof.
  intros Hf (Hg & Htg & Hc & Htc & Hp). destruct (Hf (app cfg)) as (E1 & E2 & E3 & E4).
  unfold paramsOk, silently. simpl. rewrite E1, E2, E3, E4. auto.
Qed.

Lemma keepsParams_handlePixelate_begin : keepsParams handlePixelate_begin.
Proof. intros s. unfold handlePixelate_begin. by destruct (truthy (sourceImage s)). Qed.

Lemma keepsParams_handleGenerate_begin : keepsParams handleGenerate_begin.
Proof. intros s. unfold handleGenerate_begin. by destruct (hasImageToSend s). Qed.

Lemma keepsParams_handleGenerate_end o : keepsParams (handleGenerate_end o).
Proof.
  intros s. destruct o as [e|statusText|image]; simpl; try done.
  by destruct (falsy image).
Qed.

Lemma keepsParams_stepperTo1 : keepsParams stepperTo1.
Proof. intros s. unfold stepperTo1. by destruct (step s). Qed.

Lemma keepsParams_stepperTo2 : keepsParams stepperTo2.
Proof. intros s. unfold stepperTo2. by destruct (step s). Qed.

Lemma callPixelate_ok g c cfg :
  gridSizeOk g -> maxColorsOk c -> paramsOk cfg ->
  paramsOk (fst (callPixelate g c cfg)) /\ requestOk (snd (callPixelate g c cfg)).
Proof.
  intros Hg Hc Hcfg. unfold callPixelate.
  destruct (truthy (sourceImage (app cfg))); simpl; [|done].
  split; [|done].
  destruct Hcfg as (H1 & H2 & H3 & H4 & H5).
  destruct (keepsParams_handlePixelate_begin (app cfg)) as (E1 & E2 & E3 & E4).
  unfold paramsOk. simpl. rewrite E1, E2, E3, E4.
  split; [done|]. split; [done|]. split; [done|]. split; [done|].
  apply Forall_cons. split; [by split|done].
Qed.

Lemma callGenerate_ok cfg :
  paramsOk cfg ->
  paramsOk (fst (callGenerate cfg)) /\ requestOk (snd (callGenerate cfg)).
Proof.
  intros Hcfg. unfold callGenerate.
  destruct (hasImageToSend (app cfg)) eqn:Hsend; simpl; [|done].
  split; [|done].
  destruct Hcfg as (H1 & H2 & H3 & H4 & H5).
  destruct (keepsParams_handleGenerate_begin (app cfg)) as (E1 & E2 & E3 & E4).
  unfold paramsOk. simpl. rewrite E1, E2, E3, E4.
  split; [done|]. split; [done|]. split; [done|]. split; [done|].
  apply Forall_cons. by split.
Qed.

Lemma Forall_pending_remove before p after :
  Forall pendingOk (before ++ p :: after) ->
  pendingOk p /\ Forall pendingOk (before ++ after).
Proof.
  rewrite !Forall_app, Forall_cons. tauto.
Qed.

(** Every transition keeps the parameters in range and sends a request
    whose parameters are in range. *)
Lemma transition_ok cfg r cfg' :
  paramsOk cfg -> transition cfg r cfg' -> paramsOk cfg' /\ requestOk r.
Proof.
  intros Hcfg Ht.
  destruct Ht as [cfg file url _ | cfg | cfg | cfg _ _ | cfg b url | cfg _ _ _
                 | s before after o | cfg _ _ | cfg v _ _ Hv | cfg _ _
                 | cfg v _ _ Hv | cfg _ _ | s before after g c o | cfg _ ].
  - split; [|done]. by apply paramsOk_silently.
  - split; [|done]. apply paramsOk_silently; [apply keepsParams_stepperTo1|done].
  - split; [|done]. apply paramsOk_silently; [apply keepsParams_stepperTo2|done].
  - split; [|done]. by apply paramsOk_silently.
  - split; [|done]. by apply paramsOk_silently.
  - by apply callGenerate_ok.
  - split; [|done]. destruct Hcfg as (G1 & G2 & G3 & G4 & G5). simpl in *.
    apply Forall_pending_remove in G5 as [_ G5].
    destruct (keepsParams_handleGenerate_end o s) as (E1 & E2 & E3 & E4).
    unfold paramsOk. simpl. rewrite E1, E2, E3, E4. auto.
  - apply callPixelate_ok; [unfold gridSizeOk; lia|unfold maxColorsOk; lia|done].
  - split; [|done]. destruct Hcfg as (G1 & G2 & G3 & G4 & G5).
    apply rangeValue_bounds in Hv.
    unfold paramsOk, silently. simpl. auto.
  - destruct Hcfg as (G1 & G2 & G3 & G4 & G5).
    apply callPixelate_ok; [done|done|by unfold paramsOk].
  - split; [|done]. destruct Hcfg as (G1 & G2 & G3 & G4 & G5).
    apply rangeValue_bounds in Hv.
    unfold paramsOk, silently. simpl. auto.
  - destruct Hcfg as (G1 & G2 & G3 & G4 & G5).
    apply callPixelate_ok; [done|done|by unfold paramsOk].
  - split; [|done]. destruct Hcfg as (G1 & G2 & G3 & G4 & G5). simpl in *.
    apply Forall_pending_remove in G5 as [[Hg Hc] G5].
    unfold paramsOk. destruct o as [e|status statusText|data]; simpl; auto.
  - split; [|done]. by apply paramsOk_silently.
Qed.

Lemma reachable_paramsOk cfg : reachable cfg -> paramsOk cfg.
Proof.
  induction 1 as [|cfg r cfg' _ IH Ht].
  - unfold paramsOk, gridSizeOk, maxColorsOk. simpl. repeat split; try lia. constructor.
  - by destruct (transition_ok cfg r cfg' IH Ht).
Qed.

Lemma reachable_pixelatingConfig : reachable pixelatingConfig.
Proof.
  apply (reachable_step uploadedConfig (snd (callPixelate 64 15 uploadedConfig))).
  - apply (reachable_step initialConfig NoRequest); [apply reachable_init|].
    by apply T_upload.
  - by apply T_pixelateDefault.
Qed.

(** C4. In every reachable configuration the four slider values are in
    range ([gridSize] and [tempGridSize] in 16..128, [maxColors] and
    [tempMaxColors] in 5..30), so are the parameters of every request still
    pending, and every [/pixelate] request a transition sends has its grid
    size in 16..128 and its colour bound in 5..30. The density slider holds
    exactly the values 16, 24, ..., 128, the colour slider exactly 5..30,
    and the button of the second view asks for (64, 15). *)
Theorem C4_pixelate_parameters_stay_in_range (cfg : Config) :
  reachable cfg ->
  paramsOk cfg /\
  (forall r cfg', transition cfg r cfg' -> requestOk r) /\
  (forall v, rangeValue 16 128 8 v = true <->
     v ∈ [16; 24; 32; 40; 48; 56; 64; 72; 80; 88; 96; 104; 112; 120; 128]) /\
  (forall v, rangeValue 5 30 1 v = true <-> 5 <= v <= 30) /\
  snd (callPixelate 64 15 cfg)
    = (if truthy (sourceImage (app cfg)) then PixelateRequest 64 15 else NoRequest).
Proof.
  intros Hreach. pose proof (reachable_paramsOk cfg Hreach) as Hok.
  split; [done|]. split; [|split; [|split]].
  - intros r cfg' Ht. by destruct (transition_ok cfg r cfg' Hok Ht).
  - apply density_values.
  - intros v. rewrite colors_values, elem_of_seqZ. lia.
  - unfold callPixelate. by destruct (truthy (sourceImage (app cfg))).
Qed.

Lemma C4_witness :
  reachable pixelatingConfig /\
  paramsOk pixelatingConfig /\
  (forall r cfg', transition pixelatingConfig r cfg' -> requestOk r) /\
  (forall v, rangeValue 16 128 8 v = true <->
     v ∈ [16; 24; 32; 40; 48; 56; 64; 72; 80; 88; 96; 104; 112; 120; 128]) /\
  (forall v, rangeValue 5 30 1 v = true <-> 5 <= v <= 30) /\
  snd (callPixelate 64 15 pixelatingConfig)
    = (if truthy (sourceImage (app pixelatingConfig))
       then PixelateRequest 64 15 else NoRequest).
Proof.
  split; [apply reachable_pixelatingConfig|].
  apply (C4_pixelate_parameters_stay_in_range pixelatingConfig).
  apply reachable_pixelatingConfig.
Defined.

(** ** PixelViewer *)

Section Viewer.
Import PixelViewer.

Lemma toggleColorVisibility_elem (c d : string) (V : gset string) :
  d ∈ toggleColorVisibility c V <-> (d = c /\ c ∉ V) \/ (d <> c /\ d ∈ V).
Proof.
  unfold toggleColorVisibility. destruct (decide (c ∈ V)) as [Hc|Hc].
  - rewrite elem_of_difference, elem_of_singleton.
    destruct (decide (d = c)) as [->|Hd]; tauto.
  - rewrite elem_of_union, elem_of_singleton.
    destruct (decide (d = c)) as [->|Hd]; tauto.
Qed.

Lemma toggleColorVisibility_subset (c : string) (V W : gset string) :
  c ∈ W -> V ⊆ W -> toggleColorVisibility c V ⊆ W.
Proof.
  intros Hc HV d. rewrite toggleColorVisibility_elem.
  intros [[-> _]|[_ Hd]]; auto.
Qed.

Lemma toggleAllColors_subset (P : list string) (V : gset string) :
  toggleAllColors P V ⊆ list_to_set P.
Proof.
  unfold toggleAllColors. destruct (decide (size V = length P)); [|done].
  apply empty_subseteq.
Qed.

Lemma run_snoc p es e : run p (es ++ [e]) = handle p e (run p es).
Proof. unfold run. by rewrite foldl_app. Qed.

(** Whatever the user clicks, only palette colours are ever visible
    and the zoom stays between 1 and 50. *)
Lemma run_invariant p es :
  visibleColors (run p es) ⊆ list_to_set (usedPalette p) /\
  1 <= scale (run p es) <= 50.
Proof.
  induction es as [|e es [IHv IHs]] using rev_ind.
  - split; [done|simpl; lia].
  - rewrite run_snoc. destruct e; simpl; try done.
    + destruct (usedPalette p !! i) as [color|] eqn:Hi; [|done]. simpl.
      split; [|done]. apply toggleColorVisibility_subset; [|done].
      apply elem_of_list_to_set. by apply list_elem_of_lookup_2 in Hi.
    + split; [|done]. apply toggleAllColors_subset.
    + split; [done|]. unfold zoomOut. lia.
    + split; [done|]. unfold zoomIn. lia.
Qed.

Lemma size_list_to_set_le (P : list string) :
  (size (list_to_set P : gset string) <= length P)%nat.
Proof.
  induction P as [|c P IH].
  - by rewrite list_to_set_nil, size_empty.
  - rewrite list_to_set_cons. cbn [length].
    destruct (decide (c ∈ (list_to_set P : gset string))) as [Hc|Hc].
    + replace ({[c]} ∪ list_to_set P) with (list_to_set P : gset string) by set_solver.
      lia.
    + rewrite size_union by set_solver. rewrite size_singleton. lia.
Qed.

Lemma size_list_to_set_dup (P : list string) :
  ~ NoDup P -> (size (list_to_set P : gset string) < length P)%nat.
Proof.
  induction P as [|c P IH]; intros Hdup.
  - destruct Hdup. constructor.
  - rewrite list_to_set_cons. cbn [length].
    destruct (decide (c ∈ (list_to_set P : gset string))) as [Hc|Hc].
    + replace ({[c]} ∪ list_to_set P) with (list_to_set P : gset string) by set_solver.
      pose proof (size_list_to_set_le P). lia.
    + assert (Hdup' : ~ NoDup P).
      { intros Hnd. apply Hdup. constructor; [|done].
        intros Hin. apply Hc. by apply elem_of_list_to_set. }
      specialize (IH Hdup').
      rewrite size_union by set_solver. rewrite size_singleton. lia.
Qed.

(** The calls of the cell loop, characterised. *)
Lemma elem_of_paintRow V sc y row f :
  f ∈ paintRow V sc y row <->
  exists x color, row !! x = Some color /\ color ∈ V /\
    f = {| fillStyle := color; rx := Z.of_nat x * sc; ry := Z.of_nat y * sc;
           rw := sc; rh := sc |}.
Proof.
  unfold paintRow. rewrite elem_of_concat. split.
  - intros (l & Hl & Hf).
    apply elem_of_lookup_imap in Hl as (x & color & -> & Hx).
    unfold paintCell in Hf. destruct (decide (color ∈ V)) as [Hc|Hc].
    + apply list_elem_of_singleton in Hf. eauto.
    + inversion Hf.
  - intros (x & color & Hx & Hc & ->).
    exists (paintCell V sc y x color). split.
    + apply elem_of_lookup_imap. eauto.
    + unfold paintCell. rewrite decide_True by done. apply list_elem_of_here.
Qed.

Lemma elem_of_paintCells V sc grid f :
  f ∈ paintCells V sc grid <->
  exists y row x color, grid !! y = Some row /\ row !! x = Some color /\ color ∈ V /\
    f = {| fillStyle := color; rx := Z.of_nat x * sc; ry := Z.of_nat y * sc;
           rw := sc; rh := sc |}.
Proof.
  unfold paintCells. rewrite elem_of_concat. split.
  - intros (l & Hl & Hf).
    apply elem_of_lookup_imap in Hl as (y & row & -> & Hy).
    apply elem_of_paintRow in Hf as (x & color & Hx & Hc & ->).
    exists y, row, x, color. auto.
  - intros (y & row & x & color & Hy & Hx & Hc & ->).
    exists (paintRow V sc y row). split.
    + apply elem_of_lookup_imap. eauto.
    + apply elem_of_paintRow. eauto.
Qed.
End Viewer.

(** ** The viewer over its life *)

Section Life.
Import PixelViewer.

Lemma liveFrom_snoc v inputs i :
  liveFrom v (inputs ++ [i])
  = (fst (react (fst (liveFrom v inputs)) i),
     snd (liveFrom v inputs) ++ snd (react (fst (liveFrom v inputs)) i)).
Proof. unfold liveFrom. by rewrite foldl_app. Qed.

Lemma liveFrom_acc (v : Viewer) (ds : list Draw) inputs :
  foldl (fun acc i => (fst (react (fst acc) i), snd acc ++ snd (react (fst acc) i)))
        (v, ds) inputs
  = (fst (liveFrom v inputs), ds ++ snd (liveFrom v inputs)).
Proof.
  induction inputs as [|i inputs IH] using rev_ind.
  - simpl. by rewrite app_nil_r.
  - rewrite liveFrom_snoc, foldl_app, IH. simpl. by rewrite app_assoc.
Qed.

Lemma liveFrom_cons v i inputs :
  liveFrom v (i :: inputs)
  = (fst (liveFrom (fst (react v i)) inputs),
     snd (react v i) ++ snd (liveFrom (fst (react v i)) inputs)).
Proof. unfold liveFrom at 1. simpl. apply liveFrom_acc. Qed.

(** A click keeps the props and a settled state settled. *)
Lemma handle_settled p e s : settledState p s -> settledState p (handle p e s).
Proof.
  intros [Hsub Hscale]. unfold settledState. destruct e; simpl; try done.
  - destruct (usedPalette p !! i) as [color|] eqn:Hi; [|done]. simpl.
    split; [|done]. apply toggleColorVisibility_subset; [|done].
    apply elem_of_list_to_set. by apply list_elem_of_lookup_2 in Hi.
  - split; [|done]. apply toggleAllColors_subset.
  - split; [done|]. unfold zoomOut. lia.
  - split; [done|]. unfold zoomIn. lia.
Qed.

Lemma react_settled v i :
  1 <= scale (state v) <= 50 ->
  (forall e, i = Click e -> settledState (props v) (state v)) ->
  settledState (props (fst (react v i))) (state (fst (react v i))).
Proof.
  intros Hscale Hset. destruct i as [e|p']; simpl.
  - apply handle_settled. by apply (Hset e).
  - split; [done|]. done.
Qed.

Lemma mount_settled p : settledState (props (fst (mount p))) (state (fst (mount p))).
Proof. split; [done|]. simpl. lia. Qed.

Lemma liveFrom_settled v inputs :
  settledState (props v) (state v) ->
  settledState (props (fst (liveFrom v inputs))) (state (fst (liveFrom v inputs))).
Proof.
  intros Hv. induction inputs as [|i inputs IH] using rev_ind; [done|].
  rewrite liveFrom_snoc. simpl. apply react_settled; [apply IH|]. intros e _. apply IH.
Qed.

Lemma live_settled p inputs :
  settledState (props (fst (live p inputs))) (state (fst (live p inputs))).
Proof. unfold live. simpl. apply liveFrom_settled, mount_settled. Qed.

(** With only clicks the props stay and every run of the drawing
    effect is one of the current props with a settled state. *)
Lemma liveFrom_clicks v es :
  settledState (props v) (state v) ->
  props (fst (liveFrom v (Click <$> es))) = props v /\
  Forall (fun d => drawProps d = props v /\ settledState (props v) (drawState d))
         (snd (liveFrom v (Click <$> es))).
Proof.
  intros Hv. induction es as [|e es [IHp IHd]] using rev_ind.
  - split; [done|]. constructor.
  - rewrite fmap_app. simpl. rewrite liveFrom_snoc. simpl. split; [done|].
    apply Forall_app. split; [done|].
    pose proof (liveFrom_settled v (Click <$> es) Hv) as Hset. rewrite IHp in Hset.
    rewrite IHp.
    destruct (redraws (props v) e (state (fst (liveFrom v (Click <$> es)))));
      [|constructor].
    constructor; [|constructor]. split; [done|]. simpl. by apply handle_settled.
Qed.

(** When the zoom is positive, a cell is painted in a run of the drawing
    effect exactly when the colour the grid holds there is visible. *)
Lemma paintsCell_iff d y x :
  0 < scale (drawState d) ->
  paintsCell d y x <->
  exists color, gridData (drawProps d) !! y ≫= (.!! x) = Some color /\
                color ∈ visibleColors (drawState d).
Proof.
  intros Hscale. unfold paintsCell, drawCells. split.
  - intros (f & Hf & Hrx & Hry).
    apply elem_of_paintCells in Hf as (y' & row & x' & color & Hy & Hx & Hc & ->).
    simpl in Hrx, Hry.
    assert (x' = x) as -> by nia. assert (y' = y) as -> by nia.
    exists color. rewrite Hy. done.
  - intros (color & Hcell & Hc).
    destruct (gridData (drawProps d) !! y) as [row|] eqn:Hy; [|done]. simpl in Hcell.
    eexists. split.
    + apply elem_of_paintCells. exists y, row, x, color. eauto.
    + done.
Qed.
End Life.

Section MarkerCells.
Import PixelViewer.


(** The runs of the drawing effect of a viewer mounted on [p] and
    clicked are all settled runs on [p]. *)
Lemma live_clicks_draws p es :
  Forall (fun d => drawProps d = p /\ settledState p (drawState d))
         (snd (live p (Click <$> es))).
Proof.
  unfold live. cbn [snd]. apply Forall_app. split.
  - simpl. repeat constructor; simpl; try done; lia.
  - apply (liveFrom_clicks (fst (mount p)) es). apply mount_settled.
Qed.

(** New props reaching a mounted viewer, followed by clicks: the first
    run of the drawing effect has the state as it was, the others are
    settled runs on the new props. *)
Lemma arrival_draws (v : Viewer) (p : Props) es :
  1 <= scale (state v) <= 50 ->
  exists fresh rest,
    snd (liveFrom v (NewProps p :: (Click <$> es)))
    = {| drawProps := p; drawState := state v |} :: fresh :: rest /\
    Forall (fun d => drawProps d = p /\ settledState p (drawState d)) (fresh :: rest).
Proof.
  intros Hscale. rewrite liveFrom_cons. cbn [react fst snd].
  set (s' := setVisibleColors (list_to_set (usedPalette p)) (state v)).
  assert (Hs' : settledState p s') by (split; [done|done]).
  exists {| drawProps := p; drawState := s' |}.
  exists (snd (liveFrom {| props := p; state := s' |} (Click <$> es))).
  split; [done|]. constructor; [done|].
  apply (liveFrom_clicks {| props := p; state := s' |} es Hs').
Qed.
End MarkerCells.




Example paintCells_whiteOnly :
  PixelViewer.paintCells
    (PixelViewer.visibleColors (PixelViewer.initialState ["#ffffff"])) 10
    (gridData (toPixelResult whiteOnly))
  = [ {| PixelViewer.fillStyle := "#ffffff"; PixelViewer.rx := 0; PixelViewer.ry := 0;
         PixelViewer.rw := 10; PixelViewer.rh := 10 |};
      {| PixelViewer.fillStyle := "#ffffff"; PixelViewer.rx := 10; PixelViewer.ry := 10;
         PixelViewer.rw := 10; PixelViewer.rh := 10 |} ].
Proof. vm_compute. reflexivity. Qed.

(** With a black bead in the palette the marker is a visible colour, and
    the cell of an unknown id is painted black. *)
Example paintCells_blackAndWhite_marker_painted :
  gridData (toPixelResult blackAndWhite) !! 1%nat ≫= (.!! 0%nat) = Some "#000000" /\
  {| PixelViewer.fillStyle := "#000000"; PixelViewer.rx := 0; PixelViewer.ry := 10;
     PixelViewer.rw := 10; PixelViewer.rh := 10 |}
  ∈ PixelViewer.paintCells
      (PixelViewer.visibleColors
         (PixelViewer.initialState (usedPalette (toPixelResult blackAndWhite)))) 10
      (gridData (toPixelResult blackAndWhite)).
Proof.
  split; [reflexivity|].
  apply elem_of_paintCells. exists 1%nat, ["#000000"; "#ffffff"], 0%nat, "#000000".
  split; [reflexivity|]. split; [reflexivity|]. split; [|reflexivity].
  apply (bool_decide_unpack _). vm_compute. reflexivity.
Qed.

(** With the padding of the initial state the canvas of a 2 x 2 grid at
    scale 10 is 40 wide and high, not 20. *)
Lemma C6_counterexample :
  PixelViewer.canvasWidth blackAndWhiteProps
    (PixelViewer.initialState (PixelViewer.usedPalette blackAndWhiteProps)) = 40 /\
  PixelViewer.width blackAndWhiteProps
    * PixelViewer.scale
        (PixelViewer.initialState (PixelViewer.usedPalette blackAndWhiteProps)) = 20 /\
  PixelViewer.canvasHeight blackAndWhiteProps
    (PixelViewer.initialState (PixelViewer.usedPalette blackAndWhiteProps)) = 40 /\
  PixelViewer.height blackAndWhiteProps
    * PixelViewer.scale
        (PixelViewer.initialState (PixelViewer.usedPalette blackAndWhiteProps)) = 20.
Proof. repeat split. Qed.

(** C6, amended. The canvas is [(width + b) * scale] by
    [(height + b) * scale] where the border [b] is 2 cells while the padding
    is on (as it is initially) and 0 once it is switched off; only without
    padding are the dimensions [width * scale] and [height * scale]. *)
Theorem C6_canvas_size (p : PixelViewer.Props) (s : PixelViewer.State) :
  PixelViewer.canvasWidth p s
    = (PixelViewer.width p + (if PixelViewer.addPadding s then 2 else 0))
      * PixelViewer.scale s /\
  PixelViewer.canvasHeight p s
    = (PixelViewer.height p + (if PixelViewer.addPadding s then 2 else 0))
      * PixelViewer.scale s /\
  (PixelViewer.addPadding s = false ->
   PixelViewer.canvasWidth p s = PixelViewer.width p * PixelViewer.scale s /\
   PixelViewer.canvasHeight p s = PixelViewer.height p * PixelViewer.scale s) /\
  (PixelViewer.addPadding s = true ->
   PixelViewer.canvasWidth p s
     = PixelViewer.width p * PixelViewer.scale s + 2 * PixelViewer.scale s /\
   PixelViewer.canvasHeight p s
     = PixelViewer.height p * PixelViewer.scale s + 2 * PixelViewer.scale s).
Proof.
  unfold PixelViewer.canvasWidth, PixelViewer.canvasHeight.
  destruct (PixelViewer.addPadding s); repeat split; intros; try discriminate; lia.
Qed.

(** C8. Toggling a colour twice gives back the visible set; toggling it
    once flips whether that colour is visible and changes the visibility
    of no other colour. *)
Theorem C8_toggleColorVisibility_involution (c : string) (V : gset string) :
  PixelViewer.toggleColorVisibility c (PixelViewer.toggleColorVisibility c V) = V /\
  (c ∈ PixelViewer.toggleColorVisibility c V <-> c ∉ V) /\
  (forall d, d <> c -> d ∈ PixelViewer.toggleColorVisibility c V <-> d ∈ V).
Proof.
  split; [|split].
  - apply set_eq. intros d. rewrite !toggleColorVisibility_elem.
    destruct (decide (d = c)) as [->|Hd], (decide (c ∈ V)); tauto.
  - rewrite toggleColorVisibility_elem. tauto.
  - intros d Hd. rewrite toggleColorVisibility_elem. tauto.
Qed.

Example toggleColorVisibility_twice :
  PixelViewer.toggleColorVisibility "#ffffff" {[ "#ffffff"; "#000000" ]} = {[ "#000000" ]} /\
  PixelViewer.toggleColorVisibility "#ffffff" {[ "#000000" ]} = {[ "#ffffff"; "#000000" ]}.
Proof. split; apply (bool_decide_unpack _); vm_compute; reflexivity. Qed.

(** C9. [toggleAllColors] gives the empty set when the size of the visible
    set equals the length of [usedPalette] and the set of all palette
    colours otherwise; for a visible set within the palette the result is
    empty exactly in the first case. If [usedPalette] has a duplicate, the
    two numbers differ for every visible set within the palette, the full
    set included and every set the viewer can reach: the result is then
    always the set of all palette colours. *)
Theorem C9_toggleAllColors (P : list string) (V : gset string) :
  (size V = length P -> PixelViewer.toggleAllColors P V = ∅) /\
  (size V <> length P -> PixelViewer.toggleAllColors P V = list_to_set P) /\
  (V ⊆ list_to_set P ->
   (PixelViewer.toggleAllColors P V = ∅ <-> size V = length P)) /\
  (~ NoDup P ->
   PixelViewer.toggleAllColors P (list_to_set P) = list_to_set P /\
   (V ⊆ list_to_set P ->
    size V <> length P /\ PixelViewer.toggleAllColors P V = list_to_set P) /\
   (forall p es, PixelViewer.usedPalette p = P ->
      size (PixelViewer.visibleColors (PixelViewer.run p es)) <> length P /\
      PixelViewer.toggleAllColors P (PixelViewer.visibleColors (PixelViewer.run p es))
        = list_to_set P)).
Proof.
  assert (Hdup : ~ NoDup P -> forall W : gset string,
            W ⊆ list_to_set P ->
            size W <> length P /\ PixelViewer.toggleAllColors P W = list_to_set P).
  { intros Hnd W HW.
    assert (size W <> length P).
    { pose proof (size_list_to_set_dup P Hnd). apply subseteq_size in HW. lia. }
    split; [done|]. unfold PixelViewer.toggleAllColors. by rewrite decide_False. }
  unfold PixelViewer.toggleAllColors at 1 2 3.
  split; [|split; [|split]].
  - intros Hs. by rewrite decide_True.
  - intros Hs. by rewrite decide_False.
  - intros HV. destruct (decide (size V = length P)) as [Hs|Hs]; [done|].
    split; [|done]. intros Hempty. exfalso. apply Hs.
    assert (V = ∅) as -> by (rewrite Hempty in HV; set_solver).
    rewrite size_empty. destruct P as [|c P]; [done|].
    rewrite list_to_set_cons in Hempty. set_solver.
  - intros Hnd. split; [by apply Hdup|]. split; [by apply Hdup|].
    intros p es <-. apply Hdup; [done|]. apply run_invariant.
Qed.

Lemma C9_witness :
  (~ NoDup ["#ffffff"; "#ffffff"]) /\
  PixelViewer.toggleAllColors ["#ffffff"; "#ffffff"] (list_to_set ["#ffffff"; "#ffffff"])
    = list_to_set ["#ffffff"; "#ffffff"] /\
  PixelViewer.toggleAllColors ["#ffffff"] (list_to_set ["#ffffff"]) = ∅.
Proof.
  assert (Hdup : ~ NoDup ["#ffffff"; "#ffffff"]).
  { apply (bool_decide_unpack _). vm_compute. reflexivity. }
  split; [exact Hdup|]. split.
  - destruct (C9_toggleAllColors ["#ffffff"; "#ffffff"] ∅) as (_ & _ & _ & H).
    exact (proj1 (H Hdup)).
  - destruct (C9_toggleAllColors ["#ffffff"] (list_to_set ["#ffffff"])) as (H & _).
    apply H. vm_compute. reflexivity.
Defined.

(** ** ImageUploader *)

Section Uploader.
Import ImageUploader.

(** C10. A drop calls [onImageSelect] with a file exactly when that file
    is the first of the dropped files and its type starts with ["image/"];
    it makes at most that one call, so the other files are ignored, and it
    clears [isDragging]. A file chosen through the input is passed on
    whatever its type, nothing is passed on when there is none, and the
    value of the input is the empty string afterwards. *)
Theorem C10_drop_filters_select_does_not (files : option (list File)) (f : File) :
  (drop_selected (handleDrop files) = [f] <->
   (exists rest, files = Some (f :: rest)) /\ String.prefix "image/" (type f) = true) /\
  (drop_selected (handleDrop files) = [] \/
   exists first rest, files = Some (first :: rest) /\
                      drop_selected (handleDrop files) = [first]) /\
  drop_isDragging (handleDrop files) = false /\
  (forall rest, select_selected (handleFileSelect (Some (f :: rest))) = [f]) /\
  select_selected (handleFileSelect None) = [] /\
  select_selected (handleFileSelect (Some [])) = [] /\
  select_inputValue (handleFileSelect files) = "".
Proof.
  split; [|split; [|split; [|split; [|split; [|split]]]]]; try done.
  - unfold handleDrop. simpl. destruct files as [[|first rest]|]; split.
    + done.
    + by intros [[rest Hr] _].
    + destruct (String.prefix "image/" (type first)) eqn:Hp; [|done].
      intros [= ->]. eauto.
    + intros [[rest' [= <- <-]] ->]. done.
    + done.
    + by intros [[rest Hr] _].
  - unfold handleDrop. simpl. destruct files as [[|first rest]|]; auto.
    destruct (String.prefix "image/" (type first)); eauto.
Qed.
End Uploader.

Example handleDrop_examples :
  ImageUploader.drop_selected
    (ImageUploader.handleDrop
       (Some [ {| name := "a.png"; type := "image/png" |};
               {| name := "b.png"; type := "image/png" |} ]))
    = [ {| name := "a.png"; type := "image/png" |} ] /\
  ImageUploader.drop_selected
    (ImageUploader.handleDrop
       (Some [ {| name := "notes.txt"; type := "text/plain" |};
               {| name := "b.png"; type := "image/png" |} ])) = [] /\
  ImageUploader.select_selected
    (ImageUploader.handleFileSelect (Some [ {| name := "notes.txt"; type := "text/plain" |} ]))
    = [ {| name := "notes.txt"; type := "text/plain" |} ].
Proof. repeat split. Qed.

(** * Further properties *)

(** ** rgbToHex and the colour strings *)

Lemma uint_string_length_le2 (d : Hexadecimal.uint) :
  (String.length (HexadecimalString.NilEmpty.string_of_uint d) <= 2)%nat ->
  (N.of_hex_uint d < 256)%N.
Proof.
  intros H.
  destruct d as [|d|d|d|d|d|d|d|d|d|d|d|d|d|d|d|d]; [vm_compute; reflexivity|..];
  (destruct d as [|d|d|d|d|d|d|d|d|d|d|d|d|d|d|d|d]; [vm_compute; reflexivity|..]);
  (destruct d as [|d|d|d|d|d|d|d|d|d|d|d|d|d|d|d|d]; [vm_compute; reflexivity|..]);
  simpl in H; lia.
Qed.

Lemma string_length_app (a b : string) :
  String.length (a +:+ b) = (String.length a + String.length b)%nat.
Proof. induction a as [|c a IH]; simpl; [done|]. by rewrite IH. Qed.

Lemma allHexDigits_app (a b : string) :
  allHexDigits (a +:+ b) = allHexDigits a && allHexDigits b.
Proof.
  induction a as [|c a IH]; simpl; [done|]. rewrite IH. by rewrite andb_assoc.
Qed.

Lemma hexOfN_length_pos (n : N) : (1 <= String.length (hexOfN n))%nat.
Proof.
  unfold hexOfN, HexadecimalString.NilZero.string_of_uint.
  destruct (N.to_hex_uint n); simpl; lia.
Qed.

Lemma hexOfN_short (n : N) : (String.length (hexOfN n) <= 2)%nat -> (n < 256)%N.
Proof.
  intros H. rewrite <- (HexadecimalN.Unsigned.of_to n).
  apply uint_string_length_le2.
  unfold hexOfN, HexadecimalString.NilZero.string_of_uint in H.
  destruct (N.to_hex_uint n); simpl in *; lia.
Qed.

Lemma padHex_length_ge2 (x : Z) : (2 <= String.length (padHex x))%nat.
Proof.
  unfold padHex.
  assert (1 <= String.length (toString16 x))%nat.
  { unfold toString16. destruct (x <? 0); [simpl; lia|apply hexOfN_length_pos]. }
  destruct (String.length (toString16 x) =? 1)%nat eqn:E.
  - apply Nat.eqb_eq in E. rewrite string_length_app.
    change (String.length "0") with 1%nat. lia.
  - apply Nat.eqb_neq in E. lia.
Qed.

(** Two characters that are hex digits are printed for bytes only. *)
Lemma padHex_two_hex_digits (x : Z) :
  String.length (padHex x) = 2%nat -> allHexDigits (padHex x) = true -> byte x.
Proof.
  unfold padHex, toString16. intros Hlen Hhex.
  destruct (x <? 0) eqn:Hneg.
  - exfalso. pose proof (hexOfN_length_pos (Z.abs_N x)) as Hpos.
    set (h := hexOfN (Z.abs_N x)) in *.
    change ("-" +:+ h) with (String "-" h) in Hlen, Hhex.
    cbn [String.length] in Hlen, Hhex.
    destruct (S (String.length h) =? 1)%nat eqn:E; [apply Nat.eqb_eq in E; lia|].
    change (allHexDigits (String "-" h))
      with (isHexDigit "-" && allHexDigits h) in Hhex.
    change (isHexDigit "-") with false in Hhex. discriminate.
  - apply Z.ltb_ge in Hneg.
    assert (Hshort : (String.length (hexOfN (Z.to_N x)) <= 2)%nat).
    { destruct (String.length (hexOfN (Z.to_N x)) =? 1)%nat eqn:E.
      - apply Nat.eqb_eq in E. lia.
      - lia. }
    apply hexOfN_short in Hshort. unfold byte. lia.
Qed.

Lemma padHex_bytes_css :
  Forall (fun x => String.length (padHex x) = 2%nat /\ allHexDigits (padHex x) = true)
         (seqZ 0 256).
Proof. apply (bool_decide_unpack _). vm_compute. reflexivity. Qed.

(** X1. [rgbToHex r g b] is a colour of the form ["#rrggbb"] (seven
    characters, six of them hexadecimal digits) exactly when each of the
    three channels is an integer from 0 to 255. *)
Theorem X1_rgbToHex_css_colour_iff_bytes (r g b : Z) :
  isCssHexColor (rgbToHex r g b) = true <-> byteTriple (r, g, b).
Proof.
  rewrite rgbToHex_unfold. unfold isCssHexColor, byteTriple. simpl fst. simpl snd.
  rewrite !andb_true_iff, Nat.eqb_eq, !string_length_app, !allHexDigits_app,
    !andb_true_iff.
  pose proof (padHex_length_ge2 r). pose proof (padHex_length_ge2 g).
  pose proof (padHex_length_ge2 b).
  split.
  - intros [[_ Hlen] (Hr & Hg & Hb)].
    repeat split; apply padHex_two_hex_digits; auto; lia.
  - intros (Hr & Hg & Hb). pose proof padHex_bytes_css as Hall.
    rewrite Forall_forall in Hall.
    destruct (Hall r) as [Lr Dr]; [apply elem_of_seqZ; unfold byte in Hr; lia|].
    destruct (Hall g) as [Lg Dg]; [apply elem_of_seqZ; unfold byte in Hg; lia|].
    destruct (Hall b) as [Lb Db]; [apply elem_of_seqZ; unfold byte in Hb; lia|].
    repeat split; auto. lia.
Qed.

(** X2. On channels from 0 to 255 [rgbToHex] is injective: two triples
    print as the same string only if they are equal. Outside that range
    it is not: (256, 17, 17) and (16, 1, 273) print alike. *)
Theorem X2_rgbToHex_injective_on_bytes (r g b r' g' b' : Z) :
  byteTriple (r, g, b) -> byteTriple (r', g', b') ->
  (rgbToHex r g b = rgbToHex r' g' b' <-> (r, g, b) = (r', g', b')) /\
  rgbToHex 256 17 17 = rgbToHex 16 1 273.
Proof.
  intros H H'. split; [|reflexivity]. split.
  - by apply rgbToHex_byte_inj.
  - by intros [= -> -> ->].
Qed.

Lemma X2_witness :
  (byteTriple (255, 0, 10) /\ byteTriple (255, 0, 11)) /\
  (rgbToHex 255 0 10 = rgbToHex 255 0 11 <-> (255, 0, 10) = (255, 0, 11)) /\
  rgbToHex 256 17 17 = rgbToHex 16 1 273.
Proof.
  assert (H1 : byteTriple (255, 0, 10)) by (unfold byteTriple, byte; simpl; lia).
  assert (H2 : byteTriple (255, 0, 11)) by (unfold byteTriple, byte; simpl; lia).
  split; [by split|].
  exact (X2_rgbToHex_injective_on_bytes 255 0 10 255 0 11 H1 H2).
Defined.

(** X3. When several entries of [used_palette] carry the same id, the
    last of them decides the colour of the cells with that id, while
    [usedPalette] still lists the hex string of every entry, in order. *)
Theorem X3_duplicate_ids_last_entry_wins
    (data : PixelateResponse) (ps qs : list PaletteEntry) (p : PaletteEntry) :
  paletteEntries data = ps ++ p :: qs ->
  entry_id p ∉ entry_id <$> qs ->
  paletteMap data !! entry_id p = Some (entryHex p) /\
  cellHex (paletteMap data) (entry_id p) = entryHex p /\
  usedPalette (toPixelResult data)
    = (entryHex <$> ps) ++ entryHex p :: (entryHex <$> qs).
Proof.
  intros Hsplit Hlast.
  assert (Hget : paletteMap data !! entry_id p = Some (entryHex p)).
  { unfold paletteMap, buildPalette. rewrite Hsplit.
    rewrite (foldl_paletteStep_app _ ps (p :: qs)). simpl.
    rewrite foldl_paletteStep_lookup_other by done. simpl.
    apply lookup_insert_eq. }
  split; [done|]. split.
  - unfold cellHex. rewrite Hget. simpl. by rewrite entryHex_truthy.
  - simpl. rewrite paletteHexList_spec, Hsplit. by rewrite fmap_app, fmap_cons.
Qed.

Lemma X3_witness :
  (paletteEntries twoReds
     = [ {| entry_id := "H05"; entry_rgb := (255, 0, 0) |} ]
       ++ {| entry_id := "H05"; entry_rgb := (200, 0, 0) |} :: [] /\
   ("H05" ∉ entry_id <$> ([] : list PaletteEntry))) /\
  paletteMap twoReds !! "H05" = Some "#c80000" /\
  cellHex (paletteMap twoReds) "H05" = "#c80000" /\
  usedPalette (toPixelResult twoReds) = ["#ff0000"; "#c80000"].
Proof.
  assert (Hnil : "H05" ∉ entry_id <$> ([] : list PaletteEntry)) by apply not_elem_of_nil.
  split; [split; [reflexivity|exact Hnil]|].
  exact (X3_duplicate_ids_last_entry_wins twoReds
           [ {| entry_id := "H05"; entry_rgb := (255, 0, 0) |} ] []
           {| entry_id := "H05"; entry_rgb := (200, 0, 0) |} eq_refl Hnil).
Defined.

(** A value of [paletteMap] is the hex string of some entry. *)
Lemma paletteMap_lookup_Some data k h :
  paletteMap data !! k = Some h ->
  exists p, p ∈ paletteEntries data /\ entry_id p = k /\ h = entryHex p.
Proof.
  intros Hget. destruct (decide (k ∈ entry_id <$> paletteEntries data)) as [Hin|Hout].
  - destruct (paletteMap_lookup_present data k Hin) as (p & Hp & Hid & Hl).
    exists p. split; [done|]. split; [done|]. congruence.
  - rewrite (paletteMap_lookup_absent data k Hout) in Hget. discriminate.
Qed.

Lemma cellHex_cases data cellId :
  cellHex (paletteMap data) cellId ∈ usedPalette (toPixelResult data) \/
  cellHex (paletteMap data) cellId = "#000000".
Proof.
  unfold cellHex. destruct (paletteMap data !! cellId) as [h|] eqn:Hget; [|by right].
  destruct (paletteMap_lookup_Some data cellId h Hget) as (p & Hp & _ & ->).
  left. simpl. rewrite entryHex_truthy, paletteHexList_spec.
  by apply list_elem_of_fmap_2.
Qed.

Lemma gridHex_cells_closed data row color :
  row ∈ gridData (toPixelResult data) -> color ∈ row ->
  color ∈ usedPalette (toPixelResult data) \/ color = "#000000".
Proof.
  intros Hrow Hcolor. simpl in Hrow. unfold gridHex in Hrow.
  change map with (@fmap list _) in Hrow.
  apply list_elem_of_fmap in Hrow as (ids & -> & _).
  apply list_elem_of_fmap in Hcolor as (cellId & -> & _).
  apply cellHex_cases.
Qed.

(** X4. The displayed grid has the shape of [grid_data] (as many rows,
    each as long), and each of its cells holds either one of the strings
    of [usedPalette] or the marker ["#000000"]. *)
Theorem X4_displayed_grid_shape_and_colours (data : PixelateResponse) :
  length <$> gridData (toPixelResult data) = length <$> grid_data data /\
  (forall row color,
     row ∈ gridData (toPixelResult data) -> color ∈ row ->
     color ∈ usedPalette (toPixelResult data) \/ color = "#000000").
Proof.
  split.
  - simpl. unfold gridHex. change map with (@fmap list _).
    rewrite <- list_fmap_compose. apply list_fmap_ext. intros _ row _. simpl.
    by rewrite length_fmap.
  - apply gridHex_cells_closed.
Qed.

(** ** The viewer's cell loop *)

Section ViewerMore.
Import PixelViewer.

Lemma paintCells_nothing_visible sc grid : paintCells ∅ sc grid = [].
Proof.
  apply elem_of_nil_inv. intros f Hf.
  apply elem_of_paintCells in Hf as (y & row & x & color & _ & _ & Hc & _).
  by apply not_elem_of_empty in Hc.
Qed.

Lemma filter_concat_imap {A B} (P : B -> Prop) `{!forall b, Decision (P b)}
    (f g : nat -> A -> list B) (l : list A) :
  (forall i a, filter P (f i a) = g i a) ->
  filter P (concat (imap f l)) = concat (imap g l).
Proof.
  revert f g. induction l as [|a l IH]; intros f g Hfg; [done|].
  simpl. rewrite filter_app, Hfg. f_equal. apply IH. intros i b. apply Hfg.
Qed.

Lemma paintCells_hide (c : string) (V : gset string) sc grid :
  paintCells (V ∖ {[c]}) sc grid
  = filter (fun f => fillStyle f <> c) (paintCells V sc grid).
Proof.
  symmetry. unfold paintCells. apply filter_concat_imap. intros y row.
  unfold paintRow. apply filter_concat_imap. intros x color.
  unfold paintCell.
  destruct (decide (color ∈ V)) as [Hin|Hout].
  - destruct (decide (color = c)) as [->|Hne].
    + rewrite decide_False by set_solver.
      rewrite filter_cons_False by (simpl; tauto). done.
    + rewrite decide_True by set_solver.
      rewrite filter_cons_True by done. done.
  - rewrite decide_False by set_solver. done.
Qed.
End ViewerMore.

Section NoPalette.
Import PixelViewer.

(** A settled run on props without palette paints nothing. *)
Lemma settled_draw_empty_palette p d :
  usedPalette p = [] -> drawProps d = p -> settledState p (drawState d) ->
  drawCells d = [].
Proof.
  intros Hpal Hp [Hsub _]. rewrite Hpal in Hsub. unfold drawCells.
  assert (visibleColors (drawState d) = ∅) as ->.
  { apply set_eq. intros c. split; [apply Hsub|]. intros Hc.
    by apply not_elem_of_empty in Hc. }
  apply paintCells_nothing_visible.
Qed.
End NoPalette.

(** X5. When [used_palette] is not an array, or is empty, [usedPalette]
    is empty and every cell of the displayed grid is the marker
    ["#000000"]. A viewer mounted on such a result paints no cell,
    whatever is clicked. When the result reaches a viewer that is already
    mounted, the first run of the drawing effect paints only black
    squares, and only if ["#000000"] was visible for the previous result
    (then it paints every cell); the runs after it paint nothing. *)
Theorem X5_no_palette_paints_nothing_once_settled (data : PixelateResponse) :
  let p := PixelViewer.propsOf (toPixelResult data) in
  paletteEntries data = [] ->
  usedPalette (toPixelResult data) = [] /\
  (forall row color,
     row ∈ gridData (toPixelResult data) -> color ∈ row -> color = "#000000") /\
  (forall es d,
     d ∈ snd (PixelViewer.live p (PixelViewer.Click <$> es)) ->
     PixelViewer.drawCells d = []) /\
  (forall p0 inputs es,
     let v := fst (PixelViewer.live p0 inputs) in
     let stale := {| PixelViewer.drawProps := p;
                     PixelViewer.drawState := PixelViewer.state v |} in
     exists fresh rest,
       snd (PixelViewer.liveFrom v
              (PixelViewer.NewProps p :: (PixelViewer.Click <$> es)))
       = stale :: fresh :: rest /\
       (forall d, d ∈ fresh :: rest -> PixelViewer.drawCells d = []) /\
       (forall f, f ∈ PixelViewer.drawCells stale ->
          PixelViewer.fillStyle f = "#000000" /\
          "#000000" ∈ PixelViewer.visibleColors (PixelViewer.state v)) /\
       ("#000000" ∈ PixelViewer.visibleColors (PixelViewer.state v) ->
        forall y row x color,
          gridData (toPixelResult data) !! y = Some row -> row !! x = Some color ->
          PixelViewer.paintsCell stale y x)).
Proof.
  intros p Hnone.
  assert (Hpal : usedPalette (toPixelResult data) = []).
  { simpl. by rewrite paletteHexList_spec, Hnone. }
  assert (Hmarker : forall row color,
            row ∈ gridData (toPixelResult data) -> color ∈ row -> color = "#000000").
  { intros row color Hrow Hcolor.
    destruct (gridHex_cells_closed data row color Hrow Hcolor) as [Hin|Heq]; [|done].
    rewrite Hpal in Hin. inversion Hin. }
  split; [done|]. split; [done|]. split.
  - intros es d Hd.
    pose proof (live_clicks_draws p es) as Hall. rewrite Forall_forall in Hall.
    destruct (Hall d Hd) as [Hp Hset].
    by apply (settled_draw_empty_palette p d).
  - intros p0 inputs es. cbv zeta.
    destruct (live_settled p0 inputs) as [_ Hscale].
    destruct (arrival_draws (fst (PixelViewer.live p0 inputs)) p es Hscale)
      as (fresh & rest & Hdraws & Hall).
    exists fresh, rest. split; [done|]. split; [|split].
    + intros d Hd. rewrite Forall_forall in Hall. destruct (Hall d Hd) as [Hp Hset].
      by apply (settled_draw_empty_palette p d).
    + intros f Hf. unfold PixelViewer.drawCells in Hf. simpl in Hf.
      apply elem_of_paintCells in Hf as (y & row & x & color & Hy & Hx & Hc & ->).
      simpl.
      assert (color = "#000000") as ->; [|done].
      apply (Hmarker row); [by apply list_elem_of_lookup_2 in Hy|].
      by apply list_elem_of_lookup_2 in Hx.
    + intros Hvis y row x color Hy Hx.
      apply paintsCell_iff; [cbn [PixelViewer.drawState]; lia|].
      exists color. cbn [PixelViewer.drawState PixelViewer.drawProps].
      unfold p. simpl. simpl in Hy. rewrite Hy. simpl. split; [done|].
      assert (color = "#000000") as ->; [|done].
      apply (Hmarker row); [by apply list_elem_of_lookup_2 in Hy|].
      by apply list_elem_of_lookup_2 in Hx.
Qed.

Lemma X5_witness :
  let p := PixelViewer.propsOf (toPixelResult noPalette) in
  paletteEntries noPalette = [] /\
  usedPalette (toPixelResult noPalette) = [] /\
  (forall row color,
     row ∈ gridData (toPixelResult noPalette) -> color ∈ row -> color = "#000000") /\
  (forall es d,
     d ∈ snd (PixelViewer.live p (PixelViewer.Click <$> es)) ->
     PixelViewer.drawCells d = []) /\
  (forall p0 inputs es,
     let v := fst (PixelViewer.live p0 inputs) in
     let stale := {| PixelViewer.drawProps := p;
                     PixelViewer.drawState := PixelViewer.state v |} in
     exists fresh rest,
       snd (PixelViewer.liveFrom v
              (PixelViewer.NewProps p :: (PixelViewer.Click <$> es)))
       = stale :: fresh :: rest /\
       (forall d, d ∈ fresh :: rest -> PixelViewer.drawCells d = []) /\
       (forall f, f ∈ PixelViewer.drawCells stale ->
          PixelViewer.fillStyle f = "#000000" /\
          "#000000" ∈ PixelViewer.visibleColors (PixelViewer.state v)) /\
       ("#000000" ∈ PixelViewer.visibleColors (PixelViewer.state v) ->
        forall y row x color,
          gridData (toPixelResult noPalette) !! y = Some row -> row !! x = Some color ->
          PixelViewer.paintsCell stale y x)).
Proof.
  cbv zeta. split; [reflexivity|].
  exact (X5_no_palette_paints_nothing_once_settled noPalette eq_refl).
Defined.

(** The draw between a new result and the reset of the visible set:
    the viewer of [blackAndWhite] receives the result of [noPalette]
    and paints all four cells black once. *)
Example stale_draw_noPalette :
  PixelViewer.drawCells
    {| PixelViewer.drawProps := PixelViewer.propsOf (toPixelResult noPalette);
       PixelViewer.drawState := PixelViewer.state blackAndWhiteViewer |}
  = [ {| PixelViewer.fillStyle := "#000000"; PixelViewer.rx := 0; PixelViewer.ry := 0;
         PixelViewer.rw := 10; PixelViewer.rh := 10 |};
      {| PixelViewer.fillStyle := "#000000"; PixelViewer.rx := 10; PixelViewer.ry := 0;
         PixelViewer.rw := 10; PixelViewer.rh := 10 |};
      {| PixelViewer.fillStyle := "#000000"; PixelViewer.rx := 0; PixelViewer.ry := 10;
         PixelViewer.rw := 10; PixelViewer.rh := 10 |};
      {| PixelViewer.fillStyle := "#000000"; PixelViewer.rx := 10; PixelViewer.ry := 10;
         PixelViewer.rw := 10; PixelViewer.rh := 10 |} ].
Proof. vm_compute. reflexivity. Qed.

(** For clicks alone the viewer over its life is the viewer of [run]. *)
Lemma live_clicks_run p es :
  PixelViewer.state (fst (PixelViewer.live p (PixelViewer.Click <$> es)))
  = PixelViewer.run p es /\
  PixelViewer.props (fst (PixelViewer.live p (PixelViewer.Click <$> es))) = p.
Proof.
  unfold PixelViewer.live. cbn [fst].
  induction es as [|e es [IHs IHp]] using rev_ind; [done|].
  rewrite fmap_app. cbn [fmap list_fmap]. rewrite liveFrom_snoc.
  cbn [fst PixelViewer.react PixelViewer.state PixelViewer.props].
  rewrite run_snoc. rewrite IHs, IHp. done.
Qed.

(** X6. A cell whose id is listed in [used_palette] is painted: while the
    hex string of its entry is visible, the cell loop fills the square of
    side [scale] at ([x * scale], [y * scale]) with it; and in the state
    the viewer starts in that string is visible. *)
Theorem X6_palette_cells_are_painted
    (data : PixelateResponse) (y x : nat) (row : list string) (cellId : string)
    (V : gset string) (sc : Z) :
  grid_data data !! y = Some row -> row !! x = Some cellId ->
  cellId ∈ entry_id <$> paletteEntries data ->
  exists p,
    p ∈ paletteEntries data /\ entry_id p = cellId /\
    (entryHex p ∈ V ->
     {| PixelViewer.fillStyle := entryHex p;
        PixelViewer.rx := Z.of_nat x * sc; PixelViewer.ry := Z.of_nat y * sc;
        PixelViewer.rw := sc; PixelViewer.rh := sc |}
     ∈ PixelViewer.paintCells V sc (gridData (toPixelResult data))) /\
    entryHex p ∈ PixelViewer.visibleColors
                   (PixelViewer.initialState (usedPalette (toPixelResult data))).
Proof.
  intros Hy Hx Hin.
  destruct (paletteMap_lookup_present data cellId Hin) as (p & Hp & Hid & Hget).
  exists p. split; [done|]. split; [done|]. split.
  - intros HV. apply elem_of_paintCells.
    exists y, (map (cellHex (paletteMap data)) row), x, (entryHex p).
    split; [by apply gridHex_lookup|]. split; [|done].
    change map with (@fmap list _). rewrite list_lookup_fmap, Hx. simpl.
    unfold cellHex. rewrite Hget. simpl. by rewrite entryHex_truthy.
  - simpl. apply elem_of_list_to_set. rewrite paletteHexList_spec.
    by apply list_elem_of_fmap_2.
Qed.

Lemma X6_witness :
  exists p,
    p ∈ paletteEntries blackAndWhite /\ entry_id p = "H07" /\
    (entryHex p ∈ ({[ "#000000" ]} : gset string) ->
     {| PixelViewer.fillStyle := entryHex p;
        PixelViewer.rx := Z.of_nat 1 * 10; PixelViewer.ry := Z.of_nat 0 * 10;
        PixelViewer.rw := 10; PixelViewer.rh := 10 |}
     ∈ PixelViewer.paintCells {[ "#000000" ]} 10 (gridData (toPixelResult blackAndWhite))) /\
    entryHex p ∈ PixelViewer.visibleColors
                   (PixelViewer.initialState (usedPalette (toPixelResult blackAndWhite))).
Proof.
  apply (X6_palette_cells_are_painted blackAndWhite 0 1 ["H02"; "H07"] "H07"
           {[ "#000000" ]} 10).
  - reflexivity.
  - reflexivity.
  - apply (bool_decide_unpack _). vm_compute. reflexivity.
Defined.

(** X7. Hiding a colour removes exactly its squares: the calls of the
    cell loop after toggling a visible colour off are the calls before,
    without those in that colour and in the same order; toggling a hidden
    colour on is the reverse. *)
Theorem X7_hiding_a_layer_removes_its_cells
    (c : string) (V : gset string) (sc : Z) (grid : list (list string)) :
  (c ∈ V ->
   PixelViewer.paintCells (PixelViewer.toggleColorVisibility c V) sc grid
   = filter (fun f => PixelViewer.fillStyle f <> c) (PixelViewer.paintCells V sc grid)) /\
  (c ∉ V ->
   PixelViewer.paintCells V sc grid
   = filter (fun f => PixelViewer.fillStyle f <> c)
       (PixelViewer.paintCells (PixelViewer.toggleColorVisibility c V) sc grid)).
Proof.
  unfold PixelViewer.toggleColorVisibility. split; intros Hc.
  - rewrite decide_True by done. apply paintCells_hide.
  - rewrite decide_False by done. rewrite <- paintCells_hide.
    f_equal. set_solver.
Qed.

Section ViewerBounds.
Import PixelViewer.

(** Where a call of the cell loop comes from in a well-shaped grid. *)
Lemma paintCells_origin p V sc f :
  wellShaped p -> f ∈ paintCells V sc (gridData p) ->
  exists (y x : nat),
    Z.of_nat y < height p /\ Z.of_nat x < width p /\
    gridData p !! y ≫= (.!! x) = Some (fillStyle f) /\ fillStyle f ∈ V /\
    rx f = Z.of_nat x * sc /\ ry f = Z.of_nat y * sc /\ rw f = sc /\ rh f = sc.
Proof.
  intros [Hh Hw] Hf.
  apply elem_of_paintCells in Hf as (y & row & x & color & Hy & Hx & Hc & ->).
  exists y, x. simpl.
  pose proof (lookup_lt_Some _ _ _ Hy) as Hylt.
  pose proof (lookup_lt_Some _ _ _ Hx) as Hxlt.
  rewrite Forall_forall in Hw.
  assert (Hrow : Z.of_nat (length row) = width p).
  { apply Hw. by apply list_elem_of_lookup_2 in Hy. }
  rewrite Hy. simpl. repeat split; try done; lia.
Qed.
End ViewerBounds.

Lemma whiteOnlyProps_wellShaped : PixelViewer.wellShaped whiteOnlyProps.
Proof. split; [reflexivity|]. repeat constructor. Qed.

(** X8. For a grid of [height] rows of [width] cells every square of the
    cell loop lies inside the grid area, in every state the viewer can
    reach; on the canvas, where the origin is shifted by the border, it
    lies between the borders and never on them. *)
Theorem X8_beads_stay_inside_the_grid_area
    (p : PixelViewer.Props) (es : list PixelViewer.Event) (f : PixelViewer.FillRect) :
  PixelViewer.wellShaped p ->
  f ∈ PixelViewer.paintCells (PixelViewer.visibleColors (PixelViewer.run p es))
        (PixelViewer.scale (PixelViewer.run p es)) (PixelViewer.gridData p) ->
  (0 <= PixelViewer.rx f /\
   PixelViewer.rx f + PixelViewer.rw f
     <= PixelViewer.width p * PixelViewer.scale (PixelViewer.run p es)) /\
  (0 <= PixelViewer.ry f /\
   PixelViewer.ry f + PixelViewer.rh f
     <= PixelViewer.height p * PixelViewer.scale (PixelViewer.run p es)) /\
  (PixelViewer.origin (PixelViewer.run p es)
     <= PixelViewer.origin (PixelViewer.run p es) + PixelViewer.rx f /\
   PixelViewer.origin (PixelViewer.run p es) + PixelViewer.rx f + PixelViewer.rw f
     <= PixelViewer.canvasWidth p (PixelViewer.run p es)
        - PixelViewer.origin (PixelViewer.run p es)) /\
  (PixelViewer.origin (PixelViewer.run p es)
     <= PixelViewer.origin (PixelViewer.run p es) + PixelViewer.ry f /\
   PixelViewer.origin (PixelViewer.run p es) + PixelViewer.ry f + PixelViewer.rh f
     <= PixelViewer.canvasHeight p (PixelViewer.run p es)
        - PixelViewer.origin (PixelViewer.run p es)).
Proof.
  intros Hshape Hf.
  destruct (run_invariant p es) as [_ Hscale].
  destruct (paintCells_origin p _ _ f Hshape Hf)
    as (y & x & Hy & Hx & _ & _ & Hrx & Hry & Hrw & Hrh).
  set (s := PixelViewer.run p es) in *.
  unfold PixelViewer.origin, PixelViewer.canvasWidth, PixelViewer.canvasHeight.
  rewrite Hrx, Hry, Hrw, Hrh.
  destruct (PixelViewer.addPadding s); nia.
Qed.

Lemma X8_witness :
  (PixelViewer.wellShaped whiteOnlyProps /\
   {| PixelViewer.fillStyle := "#ffffff"; PixelViewer.rx := 10; PixelViewer.ry := 10;
      PixelViewer.rw := 10; PixelViewer.rh := 10 |}
   ∈ PixelViewer.paintCells
       (PixelViewer.visibleColors (PixelViewer.run whiteOnlyProps []))
       (PixelViewer.scale (PixelViewer.run whiteOnlyProps []))
       (PixelViewer.gridData whiteOnlyProps)) /\
  (0 <= 10 /\ 10 + 10 <= 2 * 10) /\ (0 <= 10 /\ 10 + 10 <= 2 * 10) /\
  (10 <= 10 + 10 /\ 10 + 10 + 10 <= 40 - 10) /\
  (10 <= 10 + 10 /\ 10 + 10 + 10 <= 40 - 10).
Proof.
  assert (Hin : {| PixelViewer.fillStyle := "#ffffff"; PixelViewer.rx := 10;
                   PixelViewer.ry := 10; PixelViewer.rw := 10; PixelViewer.rh := 10 |}
     ∈ PixelViewer.paintCells
         (PixelViewer.visibleColors (PixelViewer.run whiteOnlyProps []))
         (PixelViewer.scale (PixelViewer.run whiteOnlyProps []))
         (PixelViewer.gridData whiteOnlyProps)).
  { apply elem_of_paintCells. exists 1%nat, ["#000000"; "#ffffff"], 1%nat, "#ffffff".
    split; [reflexivity|]. split; [reflexivity|]. split; [|reflexivity].
    apply (bool_decide_unpack _). vm_compute. reflexivity. }
  split; [split; [exact whiteOnlyProps_wellShaped|exact Hin]|].
  exact (X8_beads_stay_inside_the_grid_area whiteOnlyProps [] _
           whiteOnlyProps_wellShaped Hin).
Defined.

Section LifeDraws.
Import PixelViewer.

Lemma handle_scale p e s : 1 <= scale s <= 50 -> 1 <= scale (handle p e s) <= 50.
Proof.
  intros Hs. destruct e; simpl; try done.
  - by destruct (usedPalette p !! i).
  - unfold zoomOut. lia.
  - unfold zoomIn. lia.
Qed.

Lemma react_draws_scale v i :
  1 <= scale (state v) <= 50 ->
  Forall (fun d => 1 <= scale (drawState d) <= 50) (snd (react v i)).
Proof.
  intros Hs. destruct i as [e|p']; simpl.
  - destruct (redraws (props v) e (state v)); repeat constructor; simpl;
      apply handle_scale; done.
  - repeat constructor; simpl; lia.
Qed.

(** Every run of the drawing effect has a zoom between 1 and 50. *)
Lemma live_draws_scale p inputs :
  Forall (fun d => 1 <= scale (drawState d) <= 50) (snd (live p inputs)).
Proof.
  unfold live. cbn [snd]. apply Forall_app. split.
  - simpl. repeat constructor; simpl; lia.
  - induction inputs as [|i inputs IH] using rev_ind; [constructor|].
    rewrite liveFrom_snoc. cbn [snd]. apply Forall_app. split; [done|].
    apply react_draws_scale.
    apply (liveFrom_settled (fst (mount p)) inputs (mount_settled p)).
Qed.

(** What a run of the drawing effect paints, whatever its state. *)
Lemma drawCells_show_the_grid d :
  0 < scale (drawState d) ->
  (forall f, f ∈ drawCells d ->
     fillStyle f ∈ visibleColors (drawState d) /\
     gridData (drawProps d) !! Z.to_nat (ry f / scale (drawState d))
       ≫= (.!! Z.to_nat (rx f / scale (drawState d))) = Some (fillStyle f)) /\
  (forall f1 f2, f1 ∈ drawCells d -> f2 ∈ drawCells d -> f1 <> f2 ->
     rx f1 + rw f1 <= rx f2 \/ rx f2 + rw f2 <= rx f1 \/
     ry f1 + rh f1 <= ry f2 \/ ry f2 + rh f2 <= ry f1).
Proof.
  intros Hscale. unfold drawCells. split.
  - intros f Hf.
    apply elem_of_paintCells in Hf as (y & row & x & color & Hy & Hx & Hc & ->).
    simpl. split; [done|].
    rewrite !Z.div_mul by lia. rewrite !Nat2Z.id, Hy. done.
  - intros f1 f2 Hf1 Hf2 Hne.
    apply elem_of_paintCells in Hf1 as (y1 & row1 & x1 & c1 & Hy1 & Hx1 & _ & ->).
    apply elem_of_paintCells in Hf2 as (y2 & row2 & x2 & c2 & Hy2 & Hx2 & _ & ->).
    simpl.
    destruct (decide (y1 = y2)) as [->|Hy]; [|nia].
    destruct (decide (x1 = x2)) as [->|Hx]; [|nia].
    exfalso. apply Hne. congruence.
Qed.

Lemma settled_draw_palette p d f :
  drawProps d = p -> settledState p (drawState d) -> f ∈ drawCells d ->
  fillStyle f ∈ usedPalette p.
Proof.
  intros Hp [Hsub Hscale] Hf.
  destruct (drawCells_show_the_grid d ltac:(lia)) as [Hshow _].
  destruct (Hshow f Hf) as [Hvis _]. apply Hsub in Hvis.
  by apply elem_of_list_to_set in Hvis.
Qed.
End LifeDraws.

(** X9. In every run of the drawing effect over the life of a viewer,
    the zoom is between 1 and 50, every square of the cell loop is filled
    with a visible colour, which is the colour the grid holds at the cell
    the square covers, and two different squares do not overlap. The
    colour is one of [usedPalette] in the runs of the mount and in the
    runs after a click; when new props arrive the effect runs twice,
    first with colours of the previous [usedPalette], then with colours
    of the new one. *)
Theorem X9_painted_cells_show_the_grid
    (p : PixelViewer.Props) (inputs : list PixelViewer.Input) :
  let v := fst (PixelViewer.live p inputs) in
  (forall d, d ∈ snd (PixelViewer.live p inputs) ->
     1 <= PixelViewer.scale (PixelViewer.drawState d) <= 50 /\
     (forall f, f ∈ PixelViewer.drawCells d ->
        PixelViewer.fillStyle f ∈ PixelViewer.visibleColors (PixelViewer.drawState d) /\
        PixelViewer.gridData (PixelViewer.drawProps d)
          !! Z.to_nat (PixelViewer.ry f / PixelViewer.scale (PixelViewer.drawState d))
          ≫= (.!! Z.to_nat (PixelViewer.rx f
                             / PixelViewer.scale (PixelViewer.drawState d)))
        = Some (PixelViewer.fillStyle f)) /\
     (forall f1 f2, f1 ∈ PixelViewer.drawCells d -> f2 ∈ PixelViewer.drawCells d ->
        f1 <> f2 ->
        PixelViewer.rx f1 + PixelViewer.rw f1 <= PixelViewer.rx f2 \/
        PixelViewer.rx f2 + PixelViewer.rw f2 <= PixelViewer.rx f1 \/
        PixelViewer.ry f1 + PixelViewer.rh f1 <= PixelViewer.ry f2 \/
        PixelViewer.ry f2 + PixelViewer.rh f2 <= PixelViewer.ry f1)) /\
  (forall d f, d ∈ snd (PixelViewer.mount p) -> f ∈ PixelViewer.drawCells d ->
     PixelViewer.fillStyle f ∈ PixelViewer.usedPalette p) /\
  (forall e d f,
     d ∈ snd (PixelViewer.react v (PixelViewer.Click e)) ->
     f ∈ PixelViewer.drawCells d ->
     PixelViewer.fillStyle f ∈ PixelViewer.usedPalette (PixelViewer.drawProps d)) /\
  (forall p',
     snd (PixelViewer.react v (PixelViewer.NewProps p'))
     = [ {| PixelViewer.drawProps := p'; PixelViewer.drawState := PixelViewer.state v |};
         {| PixelViewer.drawProps := p';
            PixelViewer.drawState :=
              PixelViewer.setVisibleColors (list_to_set (PixelViewer.usedPalette p'))
                (PixelViewer.state v) |} ] /\
     (forall f,
        f ∈ PixelViewer.drawCells
              {| PixelViewer.drawProps := p';
                 PixelViewer.drawState := PixelViewer.state v |} ->
        PixelViewer.fillStyle f ∈ PixelViewer.usedPalette (PixelViewer.props v)) /\
     (forall f,
        f ∈ PixelViewer.drawCells
              {| PixelViewer.drawProps := p';
                 PixelViewer.drawState :=
                   PixelViewer.setVisibleColors
                     (list_to_set (PixelViewer.usedPalette p')) (PixelViewer.state v) |} ->
        PixelViewer.fillStyle f ∈ PixelViewer.usedPalette p')).
Proof.
  cbv zeta. pose proof (live_settled p inputs) as Hv.
  set (v := fst (PixelViewer.live p inputs)) in *.
  split; [|split; [|split]].
  - intros d Hd. pose proof (live_draws_scale p inputs) as Hall.
    rewrite Forall_forall in Hall. specialize (Hall d Hd).
    split; [done|]. apply drawCells_show_the_grid. lia.
  - intros d f Hd Hf. simpl in Hd.
    apply (settled_draw_palette p d f); [| |done].
    + apply elem_of_cons in Hd as [->|Hd]; [done|].
      by apply list_elem_of_singleton in Hd as ->.
    + apply elem_of_cons in Hd as [->|Hd]; [split; [done|simpl; lia]|].
      apply list_elem_of_singleton in Hd as ->. split; [done|simpl; lia].
  - intros e d f Hd Hf. simpl in Hd.
    destruct (PixelViewer.redraws (PixelViewer.props v) e (PixelViewer.state v));
      [|inversion Hd].
    apply list_elem_of_singleton in Hd as ->. simpl.
    eapply settled_draw_palette; [| |exact Hf]; [done|].
    simpl. by apply handle_settled.
  - intros p'. split; [done|]. split.
    + intros f Hf. destruct Hv as [Hsub Hscale].
      destruct (drawCells_show_the_grid
                  {| PixelViewer.drawProps := p';
                     PixelViewer.drawState := PixelViewer.state v |}
                  ltac:(simpl; lia)) as [Hshow _].
      destruct (Hshow f Hf) as [Hvis _]. simpl in Hvis. apply Hsub in Hvis.
      by apply elem_of_list_to_set in Hvis.
    + intros f Hf. eapply settled_draw_palette; [| |exact Hf]; [done|].
      destruct Hv as [_ Hscale]. split; [done|done].
Qed.

(** X10. The zoom factor stays between 1 and 50 whatever the user
    clicks; a zoom-in adds one up to 50, a zoom-out takes one off down to
    1, and within these bounds each undoes the other. The canvas is then
    at least [width] and at most [(width + 2) * 50] wide. *)
Theorem X10_zoom_stays_between_1_and_50
    (p : PixelViewer.Props) (es : list PixelViewer.Event) :
  1 <= PixelViewer.scale (PixelViewer.run p es) <= 50 /\
  (forall z, 1 <= z < 50 -> PixelViewer.zoomOut (PixelViewer.zoomIn z) = z) /\
  (forall z, 1 < z <= 50 -> PixelViewer.zoomIn (PixelViewer.zoomOut z) = z) /\
  PixelViewer.scale (PixelViewer.run p (es ++ [PixelViewer.ClickZoomIn]))
    = Z.min 50 (PixelViewer.scale (PixelViewer.run p es) + 1) /\
  PixelViewer.scale (PixelViewer.run p (es ++ [PixelViewer.ClickZoomOut]))
    = Z.max 1 (PixelViewer.scale (PixelViewer.run p es) - 1) /\
  (0 <= PixelViewer.width p ->
   PixelViewer.width p <= PixelViewer.canvasWidth p (PixelViewer.run p es)
     <= (PixelViewer.width p + 2) * 50).
Proof.
  destruct (run_invariant p es) as [_ Hscale].
  split; [done|]. split; [|split; [|split; [|split]]].
  - intros z Hz. unfold PixelViewer.zoomOut, PixelViewer.zoomIn. lia.
  - intros z Hz. unfold PixelViewer.zoomOut, PixelViewer.zoomIn. lia.
  - by rewrite run_snoc.
  - by rewrite run_snoc.
  - intros Hw. unfold PixelViewer.canvasWidth.
    destruct (PixelViewer.addPadding (PixelViewer.run p es)); nia.
Qed.

(** X11. For a palette without duplicates and a visible set within it,
    [toggleAllColors] hides everything exactly when everything is
    visible and shows everything otherwise; for a non-empty palette a
    second click gives everything back in the first case and hides
    everything in the second. *)
Theorem X11_toggleAll_alternates_for_distinct_palette
    (P : list string) (V : gset string) :
  NoDup P -> V ⊆ list_to_set P ->
  (PixelViewer.toggleAllColors P V
   = if decide (V = list_to_set P) then ∅ else list_to_set P) /\
  (P <> [] ->
   PixelViewer.toggleAllColors P (PixelViewer.toggleAllColors P V)
   = if decide (V = list_to_set P) then list_to_set P else ∅).
Proof.
  intros Hnd HV.
  assert (Hsize : forall W : gset string, W ⊆ list_to_set P ->
            (size W = length P <-> W = list_to_set P)).
  { intros W HW. rewrite <- (size_list_to_set (C := gset string) P Hnd). split.
    - intros Hs. apply set_subseteq_size_eq; [done|]. lia.
    - by intros ->. }
  assert (Hone : forall W : gset string, W ⊆ list_to_set P ->
            PixelViewer.toggleAllColors P W
            = if decide (W = list_to_set P) then ∅ else list_to_set P).
  { intros W HW. unfold PixelViewer.toggleAllColors.
    destruct (decide (size W = length P)) as [Hs|Hs].
    - rewrite decide_True; [done|]. by apply Hsize.
    - rewrite decide_False; [done|]. intros Heq. apply Hs. by apply Hsize. }
  split; [by apply Hone|]. intros Hne.
  assert (Hfull : (list_to_set P : gset string) <> ∅).
  { destruct P as [|c P]; [done|]. rewrite list_to_set_cons. set_solver. }
  rewrite (Hone V HV). destruct (decide (V = list_to_set P)) as [->|Hneq].
  - rewrite Hone by apply empty_subseteq. rewrite decide_False; [done|].
    intros Heq. by apply Hfull.
  - rewrite Hone by done. by rewrite decide_True.
Qed.

Lemma X11_witness :
  (NoDup ["#ffffff"; "#000000"] /\
   ({[ "#ffffff" ]} : gset string) ⊆ list_to_set ["#ffffff"; "#000000"]) /\
  (PixelViewer.toggleAllColors ["#ffffff"; "#000000"] {[ "#ffffff" ]}
   = if decide (({[ "#ffffff" ]} : gset string) = list_to_set ["#ffffff"; "#000000"])
     then ∅ else list_to_set ["#ffffff"; "#000000"]) /\
  (["#ffffff"; "#000000"] <> [] ->
   PixelViewer.toggleAllColors ["#ffffff"; "#000000"]
     (PixelViewer.toggleAllColors ["#ffffff"; "#000000"] {[ "#ffffff" ]})
   = if decide (({[ "#ffffff" ]} : gset string) = list_to_set ["#ffffff"; "#000000"])
     then list_to_set ["#ffffff"; "#000000"] else ∅).
Proof.
  assert (Hnd : NoDup ["#ffffff"; "#000000"]).
  { apply (bool_decide_unpack _). vm_compute. reflexivity. }
  assert (Hsub : ({[ "#ffffff" ]} : gset string) ⊆ list_to_set ["#ffffff"; "#000000"]).
  { apply (bool_decide_unpack _). vm_compute. reflexivity. }
  split; [by split|].
  exact (X11_toggleAll_alternates_for_distinct_palette
           ["#ffffff"; "#000000"] {[ "#ffffff" ]} Hnd Hsub).
Defined.

(** ** The checkerboard and the grid lines *)

Section Loops.
Import PixelViewer.

Lemma forLoop_ext fuel x (c1 c2 : Z -> bool) stp :
  (forall v, c1 v = c2 v) -> forLoop fuel x c1 stp = forLoop fuel x c2 stp.
Proof.
  intros Hc. revert x. induction fuel as [|fuel IH]; intros x; simpl; [done|].
  rewrite Hc. destruct (c2 x); [|done]. by rewrite IH.
Qed.

Lemma iterations_done x limit stp : 0 < stp -> limit <= x -> iterations x limit stp = 0%nat.
Proof.
  intros Hs Hx. unfold iterations.
  assert ((limit - x + stp - 1) / stp <= 0); [|lia].
  apply Z.lt_succ_r. apply Z.div_lt_upper_bound; lia.
Qed.

Lemma iterations_step x limit stp :
  0 < stp -> x < limit -> iterations x limit stp = S (iterations (x + stp) limit stp).
Proof.
  intros Hs Hx. unfold iterations.
  replace (limit - x + stp - 1) with ((limit - (x + stp) + stp - 1) + 1 * stp) by lia.
  rewrite Z.div_add by lia.
  assert (0 <= (limit - (x + stp) + stp - 1) / stp) by (apply Z.div_pos; lia).
  lia.
Qed.

(** With enough fuel the loop runs to its end: it visits
    [x], [x + stp], ... as long as they are below the limit. *)
Lemma forLoop_lt_closed fuel x limit stp :
  0 < stp -> (iterations x limit stp <= fuel)%nat ->
  forLoop fuel x (fun v => v <? limit) stp
  = (fun k : nat => x + stp * Z.of_nat k) <$> seq 0 (iterations x limit stp).
Proof.
  intros Hs. revert x. induction fuel as [|fuel IH]; intros x Hfuel.
  - assert (iterations x limit stp = 0%nat) as -> by lia. done.
  - simpl. destruct (x <? limit) eqn:Hlt.
    + apply Z.ltb_lt in Hlt. rewrite (iterations_step x limit stp) in * by done.
      rewrite IH by lia. cbn [seq fmap list_fmap]. f_equal; [lia|].
      rewrite <- fmap_S_seq, <- list_fmap_compose.
      apply list_fmap_ext. intros _ k _. simpl. lia.
    + apply Z.ltb_ge in Hlt. by rewrite iterations_done.
Qed.

Lemma iterations_from_zero limit : (iterations 0 limit patternSize <= Z.to_nat limit)%nat.
Proof.
  unfold iterations, patternSize. destruct (decide (limit <= 0)) as [Hneg|Hpos].
  - assert ((limit - 0 + 10 - 1) / 10 <= 0); [|lia].
    apply Z.lt_succ_r. apply Z.div_lt_upper_bound; lia.
  - assert ((limit - 0 + 10 - 1) / 10 <= limit); [|lia].
    apply Z.lt_succ_r. apply Z.div_lt_upper_bound; lia.
Qed.

Lemma checker_axis limit :
  forLoop (Z.to_nat limit) 0 (fun v => v <? limit) patternSize
  = (fun k : nat => patternSize * Z.of_nat k) <$> seq 0 (iterations 0 limit patternSize).
Proof.
  rewrite forLoop_lt_closed; [done|unfold patternSize; lia|apply iterations_from_zero].
Qed.

Lemma elem_of_checker_axis limit v :
  v ∈ forLoop (Z.to_nat limit) 0 (fun v => v <? limit) patternSize <->
  exists k : nat, v = patternSize * Z.of_nat k /\ v < limit.
Proof.
  rewrite checker_axis, list_elem_of_fmap. unfold iterations, patternSize.
  replace (limit - 0 + 10 - 1) with (limit + 9) by lia.
  pose proof (Z.div_mod (limit + 9) 10 ltac:(lia)) as Hdm.
  pose proof (Z.mod_pos_bound (limit + 9) 10 ltac:(lia)) as Hmod.
  set (q := (limit + 9) / 10) in *. set (m := (limit + 9) mod 10) in *.
  split.
  - intros (k & -> & Hk). exists k. split; [done|].
    apply elem_of_seq in Hk. lia.
  - intros (k & -> & Hk). exists k. split; [done|].
    apply elem_of_seq. lia.
Qed.

(** The tiles of the checkerboard, characterised. *)
Lemma elem_of_checkerboard p s f :
  f ∈ checkerboard p s <->
  exists i j : nat,
    patternSize * Z.of_nat i < width p * scale s /\
    patternSize * Z.of_nat j < height p * scale s /\
    f = {| fillStyle := checkerStyle (patternSize * Z.of_nat i) (patternSize * Z.of_nat j);
           rx := patternSize * Z.of_nat i; ry := patternSize * Z.of_nat j;
           rw := patternSize; rh := patternSize |}.
Proof.
  unfold checkerboard, checkerXs, checkerYs. rewrite elem_of_concat.
  change map with (@fmap list _). split.
  - intros (l & Hl & Hf). apply list_elem_of_fmap in Hl as (x & -> & Hx).
    apply list_elem_of_fmap in Hf as (y & -> & Hy).
    apply elem_of_checker_axis in Hx as (i & -> & Hi).
    apply elem_of_checker_axis in Hy as (j & -> & Hj). eauto.
  - intros (i & j & Hi & Hj & ->). eexists. split.
    + apply list_elem_of_fmap. exists (patternSize * Z.of_nat i). split; [done|].
      apply elem_of_checker_axis. eauto.
    + apply list_elem_of_fmap. exists (patternSize * Z.of_nat j). split; [done|].
      apply elem_of_checker_axis. eauto.
Qed.

Lemma checkerStyle_tile (i j : nat) :
  checkerStyle (patternSize * Z.of_nat i) (patternSize * Z.of_nat j)
  = if Z.even (Z.of_nat i + Z.of_nat j) then "#f8fafc" else "#ffffff".
Proof.
  unfold checkerStyle, patternSize.
  rewrite !(Z.mul_comm 10), !Z.div_mul by lia.
  rewrite Zmod_even. by destruct (Z.even (Z.of_nat i + Z.of_nat j)).
Qed.
End Loops.

(** X12. The checkerboard covers the grid area: each point of the area
    lies in exactly one tile, and that tile is light grey or white
    according to the parity of the tile's column plus row. *)
Theorem X12_checkerboard_covers_the_grid_area
    (p : PixelViewer.Props) (s : PixelViewer.State) (px py : Z) :
  0 <= px < PixelViewer.width p * PixelViewer.scale s ->
  0 <= py < PixelViewer.height p * PixelViewer.scale s ->
  exists f,
    f ∈ PixelViewer.checkerboard p s /\
    (PixelViewer.rx f <= px < PixelViewer.rx f + PixelViewer.rw f /\
     PixelViewer.ry f <= py < PixelViewer.ry f + PixelViewer.rh f) /\
    PixelViewer.fillStyle f
      = (if Z.even (px / 10 + py / 10) then "#f8fafc" else "#ffffff") /\
    (forall g, g ∈ PixelViewer.checkerboard p s ->
       PixelViewer.rx g <= px < PixelViewer.rx g + PixelViewer.rw g ->
       PixelViewer.ry g <= py < PixelViewer.ry g + PixelViewer.rh g -> g = f).
Proof.
  intros Hx Hy.
  pose proof (Z.div_mod px 10 ltac:(lia)) as Hdx.
  pose proof (Z.mod_pos_bound px 10 ltac:(lia)) as Hmx.
  pose proof (Z.div_mod py 10 ltac:(lia)) as Hdy.
  pose proof (Z.mod_pos_bound py 10 ltac:(lia)) as Hmy.
  assert (0 <= px / 10) by (apply Z.div_pos; lia).
  assert (0 <= py / 10) by (apply Z.div_pos; lia).
  set (i := Z.to_nat (px / 10)). set (j := Z.to_nat (py / 10)).
  assert (Hi : Z.of_nat i = px / 10) by (unfold i; lia).
  assert (Hj : Z.of_nat j = py / 10) by (unfold j; lia).
  eexists. split; [|split; [|split]].
  - apply elem_of_checkerboard. exists i, j.
    split; [unfold PixelViewer.patternSize; lia|].
    split; [unfold PixelViewer.patternSize; lia|]. reflexivity.
  - simpl. unfold PixelViewer.patternSize. lia.
  - simpl. rewrite checkerStyle_tile. by rewrite Hi, Hj.
  - intros g Hg Hgx Hgy.
    apply elem_of_checkerboard in Hg as (i' & j' & _ & _ & ->).
    simpl in Hgx, Hgy. unfold PixelViewer.patternSize in Hgx, Hgy.
    assert (i' = i) as -> by lia. assert (j' = j) as -> by lia. done.
Qed.

Lemma X12_witness :
  (0 <= 15 < PixelViewer.width blackAndWhiteProps
             * PixelViewer.scale (PixelViewer.initialState ["#ffffff"; "#000000"]) /\
   0 <= 3 < PixelViewer.height blackAndWhiteProps
            * PixelViewer.scale (PixelViewer.initialState ["#ffffff"; "#000000"])) /\
  exists f,
    f ∈ PixelViewer.checkerboard blackAndWhiteProps
          (PixelViewer.initialState ["#ffffff"; "#000000"]) /\
    (PixelViewer.rx f <= 15 < PixelViewer.rx f + PixelViewer.rw f /\
     PixelViewer.ry f <= 3 < PixelViewer.ry f + PixelViewer.rh f) /\
    PixelViewer.fillStyle f
      = (if Z.even (15 / 10 + 3 / 10) then "#f8fafc" else "#ffffff") /\
    (forall g, g ∈ PixelViewer.checkerboard blackAndWhiteProps
                     (PixelViewer.initialState ["#ffffff"; "#000000"]) ->
       PixelViewer.rx g <= 15 < PixelViewer.rx g + PixelViewer.rw g ->
       PixelViewer.ry g <= 3 < PixelViewer.ry g + PixelViewer.rh g -> g = f).
Proof.
  assert (H1 : 0 <= 15 < PixelViewer.width blackAndWhiteProps
             * PixelViewer.scale (PixelViewer.initialState ["#ffffff"; "#000000"]))
    by (vm_compute; split; [discriminate|reflexivity]).
  assert (H2 : 0 <= 3 < PixelViewer.height blackAndWhiteProps
             * PixelViewer.scale (PixelViewer.initialState ["#ffffff"; "#000000"]))
    by (vm_compute; split; [discriminate|reflexivity]).
  split; [by split|].
  exact (X12_checkerboard_covers_the_grid_area blackAndWhiteProps
           (PixelViewer.initialState ["#ffffff"; "#000000"]) 15 3 H1 H2).
Defined.

Example checkerboard_2x2_scale_10 :
  PixelViewer.checkerboard blackAndWhiteProps
    (PixelViewer.initialState ["#ffffff"; "#000000"])
  = [ {| PixelViewer.fillStyle := "#f8fafc"; PixelViewer.rx := 0; PixelViewer.ry := 0;
         PixelViewer.rw := 10; PixelViewer.rh := 10 |};
      {| PixelViewer.fillStyle := "#ffffff"; PixelViewer.rx := 0; PixelViewer.ry := 10;
         PixelViewer.rw := 10; PixelViewer.rh := 10 |};
      {| PixelViewer.fillStyle := "#ffffff"; PixelViewer.rx := 10; PixelViewer.ry := 0;
         PixelViewer.rw := 10; PixelViewer.rh := 10 |};
      {| PixelViewer.fillStyle := "#f8fafc"; PixelViewer.rx := 10; PixelViewer.ry := 10;
         PixelViewer.rw := 10; PixelViewer.rh := 10 |} ].
Proof. vm_compute. reflexivity. Qed.

(** X13. Every checkerboard tile starts inside the grid area and ends
    less than 10 units beyond it. No tile exceeds the area in a direction
    whose extent is a multiple of 10; when the width is positive and not
    a multiple of 10 (and the height positive), some tile does stick out
    on the right. *)
Theorem X13_checkerboard_overdraw
    (p : PixelViewer.Props) (s : PixelViewer.State) :
  (forall f, f ∈ PixelViewer.checkerboard p s ->
     (0 <= PixelViewer.rx f < PixelViewer.width p * PixelViewer.scale s /\
      PixelViewer.rx f + PixelViewer.rw f < PixelViewer.width p * PixelViewer.scale s + 10) /\
     (0 <= PixelViewer.ry f < PixelViewer.height p * PixelViewer.scale s /\
      PixelViewer.ry f + PixelViewer.rh f
        < PixelViewer.height p * PixelViewer.scale s + 10)) /\
  ((PixelViewer.width p * PixelViewer.scale s) mod 10 = 0 ->
   forall f, f ∈ PixelViewer.checkerboard p s ->
     PixelViewer.rx f + PixelViewer.rw f <= PixelViewer.width p * PixelViewer.scale s) /\
  ((PixelViewer.height p * PixelViewer.scale s) mod 10 = 0 ->
   forall f, f ∈ PixelViewer.checkerboard p s ->
     PixelViewer.ry f + PixelViewer.rh f <= PixelViewer.height p * PixelViewer.scale s) /\
  (0 < PixelViewer.width p * PixelViewer.scale s ->
   0 < PixelViewer.height p * PixelViewer.scale s ->
   (PixelViewer.width p * PixelViewer.scale s) mod 10 <> 0 ->
   exists f, f ∈ PixelViewer.checkerboard p s /\
     PixelViewer.width p * PixelViewer.scale s < PixelViewer.rx f + PixelViewer.rw f).
Proof.
  set (W := PixelViewer.width p * PixelViewer.scale s).
  set (H := PixelViewer.height p * PixelViewer.scale s).
  split; [|split; [|split]].
  - intros f Hf. apply elem_of_checkerboard in Hf as (i & j & Hi & Hj & ->).
    simpl. fold W in Hi. fold H in Hj. unfold PixelViewer.patternSize in *. lia.
  - intros Hmod f Hf. apply elem_of_checkerboard in Hf as (i & j & Hi & _ & ->).
    simpl. fold W in Hi. unfold PixelViewer.patternSize in *.
    pose proof (Z.div_mod W 10 ltac:(lia)). lia.
  - intros Hmod f Hf. apply elem_of_checkerboard in Hf as (i & j & _ & Hj & ->).
    simpl. fold H in Hj. unfold PixelViewer.patternSize in *.
    pose proof (Z.div_mod H 10 ltac:(lia)). lia.
  - intros HW HH Hmod.
    pose proof (Z.div_mod W 10 ltac:(lia)) as Hd.
    pose proof (Z.mod_pos_bound W 10 ltac:(lia)) as Hm.
    assert (0 <= W / 10) by (apply Z.div_pos; lia).
    eexists. split.
    + apply elem_of_checkerboard. exists (Z.to_nat (W / 10)), 0%nat.
      fold W. fold H. unfold PixelViewer.patternSize.
      split; [lia|]. split; [lia|]. reflexivity.
    + simpl. unfold PixelViewer.patternSize. lia.
Qed.

Section Grid.
Import PixelViewer.

Lemma grid_axis (w : Z) :
  forLoop (Z.to_nat (w + 1)) 0 (fun v => v <=? w) 1
  = Z.of_nat <$> seq 0 (Z.to_nat (w + 1)).
Proof.
  rewrite (forLoop_ext _ _ _ (fun v => v <? w + 1)) by (intros v; lia).
  assert (Hit : iterations 0 (w + 1) 1 = Z.to_nat (w + 1)).
  { unfold iterations. rewrite Z.div_1_r. lia. }
  rewrite forLoop_lt_closed by lia. rewrite Hit.
  apply list_fmap_ext. intros _ k _. lia.
Qed.

Lemma elem_of_grid_axis (w v : Z) :
  v ∈ forLoop (Z.to_nat (w + 1)) 0 (fun v => v <=? w) 1 <-> 0 <= v <= w.
Proof.
  rewrite grid_axis, list_elem_of_fmap. split.
  - intros (k & -> & Hk). apply elem_of_seq in Hk. lia.
  - intros Hv. exists (Z.to_nat v). split; [lia|]. apply elem_of_seq. lia.
Qed.

Lemma elem_of_gridLines p s g :
  g ∈ gridLines p s <->
  showGrid s = true /\ 4 < scale s /\
  ((exists x, (0 <= x <= width p) /\
      g = {| x1 := x * scale s; y1 := 0; x2 := x * scale s; y2 := height p * scale s |}) \/
   (exists y, (0 <= y <= height p) /\
      g = {| x1 := 0; y1 := y * scale s; x2 := width p * scale s; y2 := y * scale s |})).
Proof.
  unfold gridLines, gridXs, gridYs. change map with (@fmap list _).
  destruct (showGrid s); simpl.
  - destruct (scale s >? 4) eqn:Hs.
    + assert (4 < scale s) by lia. rewrite elem_of_app, !list_elem_of_fmap.
      setoid_rewrite elem_of_grid_axis. split.
      * intros [(x & -> & Hx)|(y & -> & Hy)]; split; try done; split; try done; eauto.
      * intros (_ & _ & [(x & Hx & ->)|(y & Hy & ->)]); eauto.
    + assert (~ 4 < scale s) by lia. split; [inversion 1|tauto].
  - split; [inversion 1|]. by intros [? _].
Qed.
End Grid.

(** X14. No grid line is drawn when the grid is switched off or the zoom
    factor is 4 or less. Otherwise there are [width + 1] vertical and
    [height + 1] horizontal lines, each spanning the grid area at a
    multiple of the zoom factor. *)
Theorem X14_grid_lines_drawn_only_when_large_enough
    (p : PixelViewer.Props) (s : PixelViewer.State) :
  (PixelViewer.showGrid s = false -> PixelViewer.gridLines p s = []) /\
  (PixelViewer.scale s <= 4 -> PixelViewer.gridLines p s = []) /\
  (PixelViewer.showGrid s = true -> 4 < PixelViewer.scale s ->
   Z.of_nat (length (PixelViewer.gridLines p s))
     = Z.max 0 (PixelViewer.width p + 1) + Z.max 0 (PixelViewer.height p + 1) /\
   forall g, g ∈ PixelViewer.gridLines p s ->
     (PixelViewer.x1 g = PixelViewer.x2 g /\ PixelViewer.y1 g = 0 /\
      PixelViewer.y2 g = PixelViewer.height p * PixelViewer.scale s /\
      exists x, (0 <= x <= PixelViewer.width p) /\
                PixelViewer.x1 g = x * PixelViewer.scale s) \/
     (PixelViewer.y1 g = PixelViewer.y2 g /\ PixelViewer.x1 g = 0 /\
      PixelViewer.x2 g = PixelViewer.width p * PixelViewer.scale s /\
      exists y, (0 <= y <= PixelViewer.height p) /\
                PixelViewer.y1 g = y * PixelViewer.scale s)).
Proof.
  split; [|split].
  - intros Hoff. unfold PixelViewer.gridLines. by rewrite Hoff.
  - intros Hsmall. unfold PixelViewer.gridLines.
    assert ((PixelViewer.scale s >? 4) = false) as -> by lia.
    by rewrite andb_false_r.
  - intros Hon Hbig. split.
    + unfold PixelViewer.gridLines, PixelViewer.gridXs, PixelViewer.gridYs.
      rewrite Hon. assert ((PixelViewer.scale s >? 4) = true) as -> by lia. simpl.
      rewrite length_app, !length_map, !grid_axis, !length_fmap, !length_seq. lia.
    + intros g Hg.
      apply elem_of_gridLines in Hg as (_ & _ & [(x & Hx & ->)|(y & Hy & ->)]).
      * left. simpl. split; [done|]. split; [done|]. split; [done|]. by exists x.
      * right. simpl. split; [done|]. split; [done|]. split; [done|]. by exists y.
Qed.

(** X15. With the grid lines on, every square of the cell loop of a
    well-shaped grid is framed by them: a vertical line runs along its
    left and its right edge, a horizontal one along its top and its
    bottom edge. *)
Theorem X15_beads_are_framed_by_grid_lines
    (p : PixelViewer.Props) (s : PixelViewer.State) (V : gset string)
    (f : PixelViewer.FillRect) :
  PixelViewer.wellShaped p ->
  PixelViewer.showGrid s = true -> 4 < PixelViewer.scale s ->
  f ∈ PixelViewer.paintCells V (PixelViewer.scale s) (PixelViewer.gridData p) ->
  {| PixelViewer.x1 := PixelViewer.rx f; PixelViewer.y1 := 0;
     PixelViewer.x2 := PixelViewer.rx f;
     PixelViewer.y2 := PixelViewer.height p * PixelViewer.scale s |}
    ∈ PixelViewer.gridLines p s /\
  {| PixelViewer.x1 := PixelViewer.rx f + PixelViewer.rw f; PixelViewer.y1 := 0;
     PixelViewer.x2 := PixelViewer.rx f + PixelViewer.rw f;
     PixelViewer.y2 := PixelViewer.height p * PixelViewer.scale s |}
    ∈ PixelViewer.gridLines p s /\
  {| PixelViewer.x1 := 0; PixelViewer.y1 := PixelViewer.ry f;
     PixelViewer.x2 := PixelViewer.width p * PixelViewer.scale s;
     PixelViewer.y2 := PixelViewer.ry f |}
    ∈ PixelViewer.gridLines p s /\
  {| PixelViewer.x1 := 0; PixelViewer.y1 := PixelViewer.ry f + PixelViewer.rh f;
     PixelViewer.x2 := PixelViewer.width p * PixelViewer.scale s;
     PixelViewer.y2 := PixelViewer.ry f + PixelViewer.rh f |}
    ∈ PixelViewer.gridLines p s.
Proof.
  intros Hshape Hon Hbig Hf.
  destruct (paintCells_origin p V _ f Hshape Hf)
    as (y & x & Hy & Hx & _ & _ & Hrx & Hry & Hrw & Hrh).
  rewrite Hrx, Hry, Hrw, Hrh.
  repeat split; apply elem_of_gridLines; (split; [done|]); (split; [done|]).
  - left. exists (Z.of_nat x). split; [lia|done].
  - left. exists (Z.of_nat x + 1). split; [lia|]. f_equal; lia.
  - right. exists (Z.of_nat y). split; [lia|done].
  - right. exists (Z.of_nat y + 1). split; [lia|]. f_equal; lia.
Qed.

(** ** The handlers of App *)

(** X16. A call of [handlePixelate] with a source image always ends with
    [isLoading] false. On success the step is 3 and both pairs of slider
    values are the requested ones; on failure the slider positions
    [tempGridSize] and [tempMaxColors] stay where the user left them. The
    source image is the same afterwards in either case. *)
Theorem X16_pixelate_success_synchronises_the_sliders (s : AppState) (g c : Z) :
  truthy (sourceImage s) = true ->
  (forall o, isLoading (handlePixelate g c o s) = false) /\
  (forall data, let s' := handlePixelate g c (PixOk data) s in
     step s' = Step3 /\
     gridSize s' = g /\ tempGridSize s' = g /\
     maxColors s' = c /\ tempMaxColors s' = c /\
     sourceImage s' = sourceImage s) /\
  (forall o, (forall data, o <> PixOk data) ->
     let s' := handlePixelate g c o s in
     tempGridSize s' = tempGridSize s /\ tempMaxColors s' = tempMaxColors s /\
     sourceImage s' = sourceImage s).
Proof.
  intros Hsrc. unfold handlePixelate. rewrite Hsrc.
  unfold handlePixelate_begin. rewrite Hsrc.
  split; [|split].
  - by intros [e|status statusText|data].
  - intros data. cbv zeta. repeat split.
  - intros [e|status statusText|data] Hno; cbv zeta; [done|done|].
    by destruct (Hno data).
Qed.

Lemma X16_witness :
  truthy (sourceImage uploadedState) = true /\
  (forall o, isLoading (handlePixelate 24 7 o uploadedState) = false) /\
  (forall data, let s' := handlePixelate 24 7 (PixOk data) uploadedState in
     step s' = Step3 /\
     gridSize s' = 24 /\ tempGridSize s' = 24 /\
     maxColors s' = 7 /\ tempMaxColors s' = 7 /\
     sourceImage s' = sourceImage uploadedState) /\
  (forall o, (forall data, o <> PixOk data) ->
     let s' := handlePixelate 24 7 o uploadedState in
     tempGridSize s' = tempGridSize uploadedState /\
     tempMaxColors s' = tempMaxColors uploadedState /\
     sourceImage s' = sourceImage uploadedState).
Proof.
  split; [reflexivity|].
  exact (X16_pixelate_success_synchronises_the_sliders uploadedState 24 7 eq_refl).
Defined.

Lemma truthy_false (t : string) : truthy t = false <-> t = "".
Proof.
  unfold truthy. rewrite negb_false_iff. split.
  - intros H. by apply String.eqb_eq in H.
  - intros ->. reflexivity.
Qed.

(** X17. [handlePixelate] has no source image exactly when the generated
    image, the cropped preview and the original preview are all empty;
    it then changes nothing and sends nothing. Otherwise the source is
    the generated image if there is one, else the cropped preview if
    there is one, else the original preview. *)
Theorem X17_pixelate_needs_an_image (s : AppState) :
  (truthy (sourceImage s) = false <->
   generatedImage s = "" /\ croppedImagePreview s = "" /\ originalPreview s = "") /\
  (truthy (sourceImage s) = false ->
   forall g c o, handlePixelate g c o s = s /\
                 callPixelate g c {| app := s; inflight := [] |}
                 = ({| app := s; inflight := [] |}, NoRequest)) /\
  (truthy (generatedImage s) = true -> sourceImage s = generatedImage s) /\
  (generatedImage s = "" -> truthy (croppedImagePreview s) = true ->
   sourceImage s = croppedImagePreview s) /\
  (generatedImage s = "" -> croppedImagePreview s = "" ->
   sourceImage s = originalPreview s).
Proof.
  split; [|split; [|split; [|split]]].
  - unfold sourceImage.
    destruct (truthy (generatedImage s)) eqn:Hg.
    + rewrite Hg. split; [done|]. intros (Hgen & _). apply truthy_false in Hgen. congruence.
    + apply truthy_false in Hg. destruct (truthy (croppedImagePreview s)) eqn:Hc.
      * rewrite Hc. split; [done|]. intros (_ & Hcr & _).
        apply truthy_false in Hcr. congruence.
      * apply truthy_false in Hc. rewrite truthy_false. tauto.
  - intros Hno g c o. unfold handlePixelate, callPixelate. simpl. by rewrite Hno.
  - intros Hg. unfold sourceImage. by rewrite Hg.
  - intros Hg Hc. unfold sourceImage. rewrite Hg, Hc. reflexivity.
  - intros Hg Hc. unfold sourceImage. rewrite Hg, Hc. reflexivity.
Qed.

(** X18. A call of [handleGenerate] with an image to send ends with
    [isLoading] false and touches neither the result, the step nor the
    previews. A failure (a rejection, a status that is not ok, a body
    without an image) sets the message of that failure and keeps the
    generated image; a body with an image stores it, leaves the error
    cleared, and makes it the source of the next pixelation. *)
Theorem X18_generate_failure_keeps_the_images (s : AppState) :
  hasImageToSend s = true ->
  (forall o, let s' := handleGenerate o s in
     isLoading s' = false /\ pixelResult s' = pixelResult s /\ step s' = step s /\
     originalPreview s' = originalPreview s /\
     croppedImagePreview s' = croppedImagePreview s) /\
  (forall e, let s' := handleGenerate (GenThrown e) s in
     error s' = Some (generateErrorMessage e) /\ generatedImage s' = generatedImage s) /\
  (forall statusText, let s' := handleGenerate (GenNotOk statusText) s in
     error s' = Some ("生成失败: " +:+ statusText) /\
     generatedImage s' = generatedImage s) /\
  (forall image, falsy image = true ->
     let s' := handleGenerate (GenOk image) s in
     error s' = Some "Invalid response format from server" /\
     generatedImage s' = generatedImage s) /\
  (forall img, truthy img = true ->
     let s' := handleGenerate (GenOk (Some img)) s in
     error s' = None /\ generatedImage s' = img /\ sourceImage s' = img).
Proof.
  intros Hsend. unfold handleGenerate, handleGenerate_begin. rewrite Hsend.
  split; [|split; [|split; [|split]]].
  - intros [e|statusText|image]; cbv zeta; simpl; try done.
    by destruct (falsy image).
  - by intros e.
  - by intros statusText.
  - intros image Hf. cbv zeta. simpl. by rewrite Hf.
  - intros img Himg. cbv zeta. simpl. rewrite Himg. simpl.
    split; [done|]. split; [done|]. unfold sourceImage. simpl. by rewrite Himg.
Qed.

Lemma X18_witness :
  hasImageToSend uploadedState = true /\
  (forall o, let s' := handleGenerate o uploadedState in
     isLoading s' = false /\ pixelResult s' = pixelResult uploadedState /\
     step s' = step uploadedState /\
     originalPreview s' = originalPreview uploadedState /\
     croppedImagePreview s' = croppedImagePreview uploadedState) /\
  (forall e, let s' := handleGenerate (GenThrown e) uploadedState in
     error s' = Some (generateErrorMessage e) /\
     generatedImage s' = generatedImage uploadedState) /\
  (forall statusText, let s' := handleGenerate (GenNotOk statusText) uploadedState in
     error s' = Some ("生成失败: " +:+ statusText) /\
     generatedImage s' = generatedImage uploadedState) /\
  (forall image, falsy image = true ->
     let s' := handleGenerate (GenOk image) uploadedState in
     error s' = Some "Invalid response format from server" /\
     generatedImage s' = generatedImage uploadedState) /\
  (forall img, truthy img = true ->
     let s' := handleGenerate (GenOk (Some img)) uploadedState in
     error s' = None /\ generatedImage s' = img /\ sourceImage s' = img).
Proof.
  split; [reflexivity|].
  exact (X18_generate_failure_keeps_the_images uploadedState eq_refl).
Defined.

(** ** Invariants and interleavings of App *)

Ltac close_invariant :=
  solve [ done | split; [|split]; first [done | eauto] ].

Lemma transition_viewInvariant cfg r cfg' :
  viewInvariant cfg -> transition cfg r cfg' -> viewInvariant cfg'.
Proof.
  intros (Hview & Hres & Hload) Ht.
  destruct Ht as [cfg file url Hs1 | cfg | cfg | cfg _ _ | cfg b url | cfg _ _ _
                 | s before after o | cfg _ _ | cfg v _ _ Hv | cfg _ _
                 | cfg v _ _ Hv | cfg _ _ | s before after g c o | cfg _ ];
    unfold viewInvariant in *; simpl in *.
  - close_invariant.
  - unfold stepperTo1. destruct (step (app cfg)) eqn:Hs; simpl; rewrite ?Hs;
      close_invariant.
  - unfold stepperTo2. destruct (step (app cfg)) eqn:Hs; simpl; rewrite ?Hs;
      close_invariant.
  - close_invariant.
  - close_invariant.
  - unfold callGenerate, handleGenerate_begin.
    destruct (hasImageToSend (app cfg)); simpl; close_invariant.
  - destruct o as [e|statusText|image]; simpl; try close_invariant.
    destruct (falsy image); simpl; close_invariant.
  - unfold callPixelate, handlePixelate_begin.
    destruct (truthy (sourceImage (app cfg))); simpl; close_invariant.
  - close_invariant.
  - unfold callPixelate, handlePixelate_begin.
    destruct (truthy (sourceImage (app cfg))); simpl; close_invariant.
  - close_invariant.
  - unfold callPixelate, handlePixelate_begin.
    destruct (truthy (sourceImage (app cfg))); simpl; close_invariant.
  - destruct o as [e|status statusText|data]; simpl; try close_invariant.
    split; [done|]. split; [|done]. intros r' [= <-]. by exists data.
  - close_invariant.
Qed.

Lemma reachable_viewInvariant cfg : reachable cfg -> viewInvariant cfg.
Proof.
  induction 1 as [|cfg r cfg' _ IH Ht].
  - close_invariant.
  - by apply (transition_viewInvariant cfg r cfg').
Qed.

(** X19. In every configuration the component can reach, step 3 comes
    with a stored result built from a response body, so the third view
    always has something to show; and every cell of a stored result is
    a colour of its [usedPalette] or the marker ["#000000"]. *)
Theorem X19_third_view_always_has_a_result (cfg : Config) :
  reachable cfg ->
  (step (app cfg) = Step3 ->
   exists data, pixelResult (app cfg) = Some (toPixelResult data)) /\
  (forall r row color,
     pixelResult (app cfg) = Some r -> row ∈ gridData r -> color ∈ row ->
     color ∈ usedPalette r \/ color = "#000000").
Proof.
  intros Hreach. destruct (reachable_viewInvariant cfg Hreach) as (Hview & Hres & _).
  split.
  - intros Hstep. specialize (Hview Hstep).
    destruct (pixelResult (app cfg)) as [r|] eqn:Hr; [|done].
    destruct (Hres r eq_refl) as [data ->]. by exists data.
  - intros r row color Hr Hrow Hcolor.
    destruct (Hres r Hr) as [data ->]. by apply (gridHex_cells_closed data row).
Qed.

Lemma reachable_pixelateDone s before after g c o :
  reachable {| app := s; inflight := before ++ PendingPixelate g c :: after |} ->
  reachable {| app := handlePixelate_end g c o s; inflight := before ++ after |}.
Proof.
  intros Hreach. eapply reachable_step; [exact Hreach|]. apply T_pixelateDone.
Qed.

Lemma pixelatingConfig_unfold :
  pixelatingConfig
  = {| app := app pixelatingConfig; inflight := [] ++ PendingPixelate 64 15 :: [] |}.
Proof. vm_compute. reflexivity. Qed.

Lemma reachable_viewingConfig : reachable viewingConfig.
Proof.
  unfold viewingConfig.
  apply (reachable_pixelateDone (app pixelatingConfig) [] [] 64 15).
  rewrite <- pixelatingConfig_unfold. apply reachable_pixelatingConfig.
Qed.

Lemma X19_witness :
  reachable viewingConfig /\
  (step (app viewingConfig) = Step3 ->
   exists data, pixelResult (app viewingConfig) = Some (toPixelResult data)) /\
  (forall r row color,
     pixelResult (app viewingConfig) = Some r -> row ∈ gridData r -> color ∈ row ->
     color ∈ usedPalette r \/ color = "#000000").
Proof.
  split; [apply reachable_viewingConfig|].
  exact (X19_third_view_always_has_a_result viewingConfig reachable_viewingConfig).
Defined.

(** X20. In every configuration the component can reach, [isLoading]
    is set only while some request is pending. *)
Theorem X20_loading_means_a_request_is_pending (cfg : Config) :
  reachable cfg -> isLoading (app cfg) = true ->
  exists p rest, inflight cfg = p :: rest.
Proof.
  intros Hreach Hload.
  destruct (reachable_viewInvariant cfg Hreach) as (_ & _ & Hpending).
  specialize (Hpending Hload). destruct (inflight cfg) as [|p rest]; [done|]. eauto.
Qed.

Lemma X20_witness :
  (reachable pixelatingConfig /\ isLoading (app pixelatingConfig) = true) /\
  exists p rest, inflight pixelatingConfig = p :: rest.
Proof.
  split; [split; [apply reachable_pixelatingConfig|reflexivity]|].
  exact (X20_loading_means_a_request_is_pending pixelatingConfig
           reachable_pixelatingConfig eq_refl).
Defined.

(** X21. A reset does not cancel a pending [/pixelate] request: from any
    state past step 1 with such a request pending, the reset and then a
    successful answer are two transitions, after which the step is 3 and
    the result of that answer is stored although every image has been
    cleared, so that no further [/pixelate] request can be sent. *)
Theorem X21_late_response_after_reset
    (s : AppState) (before after : list Pending) (g c : Z) (data : PixelateResponse) :
  step s <> Step1 ->
  exists cfg1 cfg2,
    transition {| app := s; inflight := before ++ PendingPixelate g c :: after |}
      NoRequest cfg1 /\
    app cfg1 = handleReset s /\
    transition cfg1 NoRequest cfg2 /\
    step (app cfg2) = Step3 /\
    pixelResult (app cfg2) = Some (toPixelResult data) /\
    sourceImage (app cfg2) = "" /\ originalFile (app cfg2) = None /\
    (forall g' c', snd (callPixelate g' c' cfg2) = NoRequest).
Proof.
  intros Hstep.
  exists (silently handleReset
            {| app := s; inflight := before ++ PendingPixelate g c :: after |}).
  exists {| app := handlePixelate_end g c (PixOk data) (handleReset s);
            inflight := before ++ after |}.
  split; [by apply T_reset|]. split; [done|].
  split; [apply (T_pixelateDone (handleReset s) before after g c (PixOk data))|].
  repeat split.
Qed.

Lemma X21_witness :
  step (app pixelatingConfig) <> Step1 /\
  exists cfg1 cfg2,
    transition {| app := app pixelatingConfig;
                  inflight := [] ++ PendingPixelate 64 15 :: [] |} NoRequest cfg1 /\
    app cfg1 = handleReset (app pixelatingConfig) /\
    transition cfg1 NoRequest cfg2 /\
    step (app cfg2) = Step3 /\
    pixelResult (app cfg2) = Some (toPixelResult blackAndWhite) /\
    sourceImage (app cfg2) = "" /\ originalFile (app cfg2) = None /\
    (forall g' c', snd (callPixelate g' c' cfg2) = NoRequest).
Proof.
  assert (Hstep : step (app pixelatingConfig) <> Step1) by discriminate.
  split; [exact Hstep|].
  exact (X21_late_response_after_reset (app pixelatingConfig) [] [] 64 15
           blackAndWhite Hstep).
Defined.

(** X22. [handleUpload] keeps the generated image. After going back with
    the stepper, uploading another file leaves the earlier generated
    image as the source of the next pixelation; after a reset the source
    is the new upload. The upload moves to step 2, clears the error and
    the cropped preview, and keeps the stored result. *)
Theorem X22_upload_keeps_an_earlier_generated_image
    (s : AppState) (file : File) (url : string) :
  (truthy (generatedImage s) = true ->
   sourceImage (handleUpload file url (stepperTo1 s)) = generatedImage s /\
   originalPreview (handleUpload file url (stepperTo1 s)) = url) /\
  sourceImage (handleUpload file url (handleReset s)) = url /\
  step (handleUpload file url s) = Step2 /\
  error (handleUpload file url s) = None /\
  croppedImagePreview (handleUpload file url s) = "" /\
  pixelResult (handleUpload file url s) = pixelResult s.
Proof.
  split; [|split; [|repeat split]].
  - intros Hgen.
    assert (Hkeep : generatedImage (handleUpload file url (stepperTo1 s)) = generatedImage s).
    { unfold stepperTo1. by destruct (step s). }
    split.
    + unfold sourceImage. by rewrite Hkeep, Hgen.
    + unfold stepperTo1. by destruct (step s).
  - reflexivity.
Qed.

Lemma callPixelate_sends g c cfg g' c' :
  snd (callPixelate g c cfg) = PixelateRequest g' c' ->
  g' = g /\ c' = c /\ truthy (sourceImage (app cfg)) = true /\
  fst (callPixelate g c cfg)
  = {| app := setError None (setIsLoading true (app cfg));
       inflight := PendingPixelate g c :: inflight cfg |}.
Proof.
  unfold callPixelate, handlePixelate_begin.
  destruct (truthy (sourceImage (app cfg))); simpl; [|done].
  by intros [= -> ->].
Qed.

(** X23. A transition sends a [/pixelate] request only from a state with
    a source image; it sets [isLoading], clears the error, records the
    request as pending, and its parameters are (64, 15) from step 2 or
    one slider's released value with the other one's committed value
    from step 3. *)
Theorem X23_requests_are_sent_only_with_an_image
    (cfg cfg' : Config) (g c : Z) :
  transition cfg (PixelateRequest g c) cfg' ->
  truthy (sourceImage (app cfg)) = true /\
  app cfg' = setError None (setIsLoading true (app cfg)) /\
  inflight cfg' = PendingPixelate g c :: inflight cfg /\
  ((g = 64 /\ c = 15 /\ step (app cfg) = Step2) \/
   (g = tempGridSize (app cfg) /\ c = maxColors (app cfg) /\ step (app cfg) = Step3) \/
   (g = gridSize (app cfg) /\ c = tempMaxColors (app cfg) /\ step (app cfg) = Step3)).
Proof.
  intros Ht. remember (PixelateRequest g c) as r eqn:Hr.
  destruct Ht as [cfg file url Hs1 | cfg | cfg | cfg _ _ | cfg b url | cfg _ _ _
                 | s before after o | cfg Hs2 _ | cfg v _ _ Hv | cfg Hs3 _
                 | cfg v _ _ Hv | cfg Hs3 _ | s before after g0 c0 o | cfg _ ];
    try discriminate.
  - unfold callGenerate in Hr. by destruct (hasImageToSend (app cfg)).
  - destruct (callPixelate_sends _ _ _ _ _ Hr) as (-> & -> & Hsrc & ->). simpl. tauto.
  - destruct (callPixelate_sends _ _ _ _ _ Hr) as (-> & -> & Hsrc & ->). simpl. tauto.
  - destruct (callPixelate_sends _ _ _ _ _ Hr) as (-> & -> & Hsrc & ->). simpl. tauto.
Qed.

Lemma callPixelate_uploadedConfig :
  callPixelate 64 15 uploadedConfig = (pixelatingConfig, PixelateRequest 64 15).
Proof. vm_compute. reflexivity. Qed.

Lemma transition_uploaded_pixelating :
  transition uploadedConfig (PixelateRequest 64 15) pixelatingConfig.
Proof.
  pose proof (T_pixelateDefault uploadedConfig eq_refl eq_refl) as Ht.
  by rewrite callPixelate_uploadedConfig in Ht.
Qed.

Lemma X23_witness :
  transition uploadedConfig (PixelateRequest 64 15) pixelatingConfig /\
  truthy (sourceImage (app uploadedConfig)) = true /\
  app pixelatingConfig = setError None (setIsLoading true (app uploadedConfig)) /\
  inflight pixelatingConfig = PendingPixelate 64 15 :: inflight uploadedConfig /\
  ((64 = 64 /\ 15 = 15 /\ step (app uploadedConfig) = Step2) \/
   (64 = tempGridSize (app uploadedConfig) /\ 15 = maxColors (app uploadedConfig) /\
    step (app uploadedConfig) = Step3) \/
   (64 = gridSize (app uploadedConfig) /\ 15 = tempMaxColors (app uploadedConfig) /\
    step (app uploadedConfig) = Step3)).
Proof.
  split; [exact transition_uploaded_pixelating|].
  exact (X23_requests_are_sent_only_with_an_image uploadedConfig pixelatingConfig 64 15
           transition_uploaded_pixelating).
Defined.

Lemma X15_witness :
  (PixelViewer.wellShaped whiteOnlyProps /\
   PixelViewer.showGrid gridOnState = true /\ 4 < PixelViewer.scale gridOnState /\
   {| PixelViewer.fillStyle := "#ffffff"; PixelViewer.rx := 10; PixelViewer.ry := 10;
      PixelViewer.rw := 10; PixelViewer.rh := 10 |}
   ∈ PixelViewer.paintCells {[ "#ffffff" ]} (PixelViewer.scale gridOnState)
       (PixelViewer.gridData whiteOnlyProps)) /\
  {| PixelViewer.x1 := 10; PixelViewer.y1 := 0; PixelViewer.x2 := 10;
     PixelViewer.y2 := PixelViewer.height whiteOnlyProps * PixelViewer.scale gridOnState |}
    ∈ PixelViewer.gridLines whiteOnlyProps gridOnState /\
  {| PixelViewer.x1 := 10 + 10; PixelViewer.y1 := 0; PixelViewer.x2 := 10 + 10;
     PixelViewer.y2 := PixelViewer.height whiteOnlyProps * PixelViewer.scale gridOnState |}
    ∈ PixelViewer.gridLines whiteOnlyProps gridOnState /\
  {| PixelViewer.x1 := 0; PixelViewer.y1 := 10;
     PixelViewer.x2 := PixelViewer.width whiteOnlyProps * PixelViewer.scale gridOnState;
     PixelViewer.y2 := 10 |}
    ∈ PixelViewer.gridLines whiteOnlyProps gridOnState /\
  {| PixelViewer.x1 := 0; PixelViewer.y1 := 10 + 10;
     PixelViewer.x2 := PixelViewer.width whiteOnlyProps * PixelViewer.scale gridOnState;
     PixelViewer.y2 := 10 + 10 |}
    ∈ PixelViewer.gridLines whiteOnlyProps gridOnState.
Proof.
  assert (Hbig : 4 < PixelViewer.scale gridOnState) by (vm_compute; reflexivity).
  assert (Hin : {| PixelViewer.fillStyle := "#ffffff"; PixelViewer.rx := 10;
                   PixelViewer.ry := 10; PixelViewer.rw := 10; PixelViewer.rh := 10 |}
     ∈ PixelViewer.paintCells {[ "#ffffff" ]} (PixelViewer.scale gridOnState)
         (PixelViewer.gridData whiteOnlyProps)).
  { apply elem_of_paintCells. exists 1%nat, ["#000000"; "#ffffff"], 1%nat, "#ffffff".
    split; [reflexivity|]. split; [reflexivity|]. split; [|reflexivity].
    apply (bool_decide_unpack _). vm_compute. reflexivity. }
  split; [split; [exact whiteOnlyProps_wellShaped|split; [reflexivity|split; [exact Hbig|exact Hin]]]|].
  exact (X15_beads_are_framed_by_grid_lines whiteOnlyProps gridOnState {[ "#ffffff" ]} _
           whiteOnlyProps_wellShaped eq_refl Hbig Hin).
Defined.
